(** * AceTimePython: the inlined zone database generator and the query
      surface of the time-zone engine

    Part one embeds [src/inline_zone_info.py]: the class [InlineZoneInfo]
    turns the maps of the data compiler ([zones_map], [policies_map]) into
    the [zone_infos] and [zone_policies] maps.  Python objects are modelled
    by their values: no object built by this module is written again once
    it has been stored, so sharing cannot be observed.  The object itself
    is a record of its four attributes, threaded through a state and
    exception monad; an exception keeps the attributes as they were when it
    was raised.

    Part two is the time-zone engine that the tests of
    [src/tests/test_acetz.py] exercise, written from the specification.

    The definitions of both parts come first, then the facts of part one
    and of part two. *)

From Stdlib Require Import ZArith List String Ascii Lia.
From stdpp Require Import gmap strings list fin_maps.

Local Open Scope Z_scope.
Local Open Scope string_scope.
Local Open Scope list_scope.

(** ** Input records

    [acetimetools.data_types.at_types] is imported by the module and is not
    part of the sources; [ZoneRuleRaw] and [ZoneEraRaw] are given here with
    the keys that [inline_zone_info.py] reads. *)
Module at_types.

Record ZoneRuleRaw := {
  from_year : Z;
  to_year : Z;
  in_month : Z;
  on_day_of_week : Z;
  on_day_of_month : Z;
  at_seconds_truncated : Z;
  at_time_suffix : string;
  delta_seconds_truncated : Z;
  letter : string;
}.

Record ZoneEraRaw := {
  rules : string;
  offset_seconds_truncated : Z;
  rules_delta_seconds_truncated : Z;
  format : string;
  until_year : Z;
  until_month : Z;
  until_day : Z;
  until_seconds_truncated : Z;
  until_time_suffix : string;
}.

(** [Dict[str, List[ZoneEraRaw]]]: a Python dict, as the list of its items
    in insertion order; its keys are distinct. *)
Definition ZonesMap := list (string * list ZoneEraRaw).

(** [Dict[str, List[ZoneRuleRaw]]] *)
Definition PoliciesMap := list (string * list ZoneRuleRaw).

End at_types.

(** ** Output records ([inline_zone_info.py], lines 23-63) *)

(** The [TypedDict] of lines 23-34 *)
Record ZoneRule := {
  from_year : Z;
  to_year : Z;
  in_month : Z;
  on_day_of_week : Z;
  on_day_of_month : Z;
  at_seconds : Z;
  at_time_suffix : string;
  delta_seconds : Z;
  letter : string;
}.

(** The [TypedDict] of lines 36-40 *)
Record ZonePolicy := {
  name : string;
  rules : list ZoneRule;
}.

(** [Union[ZonePolicy, str]]  # '-', ':', or ZonePolicy *)
Inductive ZonePolicyOrStr :=
  | IsStr (s : string)
  | IsPolicy (p : ZonePolicy).

(** The [TypedDict] of lines 44-55 *)
Record ZoneEra := {
  offset_seconds : Z;
  zone_policy : ZonePolicyOrStr;
  rules_delta_seconds : Z;
  format : string;
  until_year : Z;
  until_month : Z;
  until_day : Z;
  until_seconds : Z;
  until_time_suffix : string;
}.

(** The [TypedDict] of lines 57-61.  [ZoneInfo] is kept as the dict that
    line 140 builds, from its keys to a string or a list of eras, so that
    the keys it has can be stated. *)
Inductive ZoneInfoValue :=
  | VStr (s : string)
  | VEras (l : list ZoneEra).

Abbreviation ZoneInfo := (gmap string ZoneInfoValue).
Abbreviation ZonePolicyMap := (gmap string ZonePolicy).
Abbreviation ZoneInfoMap := (gmap string ZoneInfo).

(** ** The object and its monad *)

(** The attributes of an object of the class (lines 76-80) *)
Record InlineZoneInfo := {
  zones_map : at_types.ZonesMap;
  policies_map : at_types.PoliciesMap;
  zone_infos : ZoneInfoMap;
  zone_policies : ZonePolicyMap;
}.

(** The exception that the module can raise, with the missing key *)
Inductive exn :=
  | KeyError (key : string).

(** A method: from the object to an exception or a value, and the object
    afterwards. *)
Definition M (A : Type) : Type := InlineZoneInfo -> (exn + A) * InlineZoneInfo.

Definition ret {A} (a : A) : M A := fun self => (inr a, self).

Definition bind {A B} (m : M A) (k : A -> M B) : M B :=
  fun self =>
    match m self with
    | (inl e, self') => (inl e, self')
    | (inr a, self') => k a self'
    end.

Definition raise {A} (e : exn) : M A := fun self => (inl e, self).

(** [self.f], read *)
Definition attr {A} (f : InlineZoneInfo -> A) : M A := fun self => (inr (f self), self).

Notation "x <- m ;; k" := (bind m (fun x => k))
  (at level 100, m at next level, right associativity).
Notation "m ;;; k" := (bind m (fun _ => k))
  (at level 100, right associativity).

(** [self.zone_policies[key] = value] *)
Definition zone_policies_setitem (key : string) (value : ZonePolicy) : M unit :=
  fun self =>
    (inr tt, {| zones_map := zones_map self;
                policies_map := policies_map self;
                zone_infos := zone_infos self;
                zone_policies := <[key := value]> (zone_policies self) |}).

(** [self.zone_infos[key] = value] *)
Definition zone_infos_setitem (key : string) (value : ZoneInfo) : M unit :=
  fun self =>
    (inr tt, {| zones_map := zones_map self;
                policies_map := policies_map self;
                zone_infos := <[key := value]> (zone_infos self);
                zone_policies := zone_policies self |}).

(** [self.zone_policies[key]], which raises [KeyError] on a missing key *)
Definition zone_policies_getitem (key : string) : M ZonePolicy :=
  fun self =>
    match zone_policies self !! key with
    | Some p => ret p self
    | None => raise (KeyError key) self
    end.

(** [for x in xs: body(x)] *)
Fixpoint for_each {A} (xs : list A) (body : A -> M unit) : M unit :=
  match xs with
  | [] => ret tt
  | x :: xs' => body x ;;; for_each xs' body
  end.

(** [for x in xs: acc = body(acc, x)], for a loop that grows a local *)
Fixpoint for_fold {A B} (xs : list A) (body : B -> A -> M B) (acc : B) : M B :=
  match xs with
  | [] => ret acc
  | x :: xs' => acc' <- body acc x ;; for_fold xs' body acc'
  end.

(** ** The class [InlineZoneInfo] *)

(** [__init__] *)
Definition __init__ (zones_map : at_types.ZonesMap)
    (policies_map : at_types.PoliciesMap) : InlineZoneInfo :=
  {| zones_map := zones_map;
     policies_map := policies_map;
     zone_infos := ∅;
     zone_policies := ∅ |}.

Section inline_zone_info.

(** [acetimetools.transformer.transformer.normalize_name], imported by the
    module and not part of the sources: any function on strings. *)
Variable normalize_name : string -> string.

(** The dict literal of lines 96-106 *)
Definition policy_rule (rule : at_types.ZoneRuleRaw) : ZoneRule :=
  {| from_year := at_types.from_year rule;
     to_year := at_types.to_year rule;
     in_month := at_types.in_month rule;
     on_day_of_week := at_types.on_day_of_week rule;
     on_day_of_month := at_types.on_day_of_month rule;
     at_seconds := at_types.at_seconds_truncated rule;
     at_time_suffix := at_types.at_time_suffix rule;
     delta_seconds := at_types.delta_seconds_truncated rule;
     letter := at_types.letter rule |}.

(** Lines 93-107: [policy_rules] starts empty and is appended to. *)
Definition policy_rules_of (rules : list at_types.ZoneRuleRaw) : list ZoneRule :=
  fold_left (fun policy_rules rule => policy_rules ++ [policy_rule rule]) rules [].

(** Lines 92-113: one turn of the loop over [policies_map.items()] *)
Definition _generate_policies_body (item : string * list at_types.ZoneRuleRaw) : M unit :=
  let '(name, rules) := item in
  let policy_rules := policy_rules_of rules in
  let normalized_name := normalize_name name in
  zone_policies_setitem normalized_name {| name := name; rules := policy_rules |}.

Definition _generate_policies : M unit :=
  items <- attr policies_map ;;
  for_each items _generate_policies_body.

(** Lines 119-125: the [zone_policy] of an era *)
Definition era_zone_policy (era : at_types.ZoneEraRaw) : M ZonePolicyOrStr :=
  let policy_name := at_types.rules era in
  if bool_decide (policy_name ∈ ["-"; ":"]) then
    ret (IsStr policy_name)
  else
    let policy_name := normalize_name policy_name in
    zone_policy <- zone_policies_getitem policy_name ;;
    ret (IsPolicy zone_policy).

(** The dict literal of lines 128-138, around the [zone_policy] of lines
    119-125 *)
Definition zone_era_with (era : at_types.ZoneEraRaw) (zone_policy : ZonePolicyOrStr)
    : ZoneEra :=
  {| offset_seconds := at_types.offset_seconds_truncated era;
     zone_policy := zone_policy;
     rules_delta_seconds := at_types.rules_delta_seconds_truncated era;
     format := at_types.format era;
     until_year := at_types.until_year era;
     until_month := at_types.until_month era;
     until_day := at_types.until_day era;
     until_seconds := at_types.until_seconds_truncated era;
     until_time_suffix := at_types.until_time_suffix era |}.

(** Lines 118-139: one turn of the loop over the eras of a zone, which
    appends to the local [zone_eras] *)
Definition zone_eras_step (zone_eras : list ZoneEra) (era : at_types.ZoneEraRaw)
    : M (list ZoneEra) :=
  zone_policy <- era_zone_policy era ;;
  ret (zone_eras ++ [zone_era_with era zone_policy]).

(** The dict literal of line 140 *)
Definition zone_info_dict (zone_name : string) (zone_eras : list ZoneEra) : ZoneInfo :=
  <["name" := VStr zone_name]> (<["eras" := VEras zone_eras]> ∅).

(** Lines 116-140: one turn of the loop over [zones_map.items()] *)
Definition _generate_infos_body (item : string * list at_types.ZoneEraRaw) : M unit :=
  let '(zone_name, eras) := item in
  zone_eras <- for_fold eras zone_eras_step [] ;;
  zone_infos_setitem zone_name (zone_info_dict zone_name zone_eras).

Definition _generate_infos : M unit :=
  items <- attr zones_map ;;
  for_each items _generate_infos_body.

(** Lines 82-89; the call of [logging.info] has no part in the result. *)
Definition generate_zonedb : M (ZoneInfoMap * ZonePolicyMap) :=
  _generate_policies ;;;
  _generate_infos ;;;
  infos <- attr zone_infos ;;
  policies <- attr zone_policies ;;
  ret (infos, policies).

End inline_zone_info.

(** ** What the loops build

    The values in which the facts below are stated. *)

(** A dict filled by one assignment per item of a list. *)
Definition assign_all {A V} (key : A -> string) (val : A -> V)
    (items : list A) (m : gmap string V) : gmap string V :=
  fold_left (fun m x => <[key x := val x]> m) items m.

Section generated.

Variable normalize_name : string -> string.

(** The [ZonePolicy] that the loop of [_generate_policies] stores for an
    item of [policies_map]. *)
Definition policy_of (item : string * list at_types.ZoneRuleRaw) : ZonePolicy :=
  {| name := item.1; rules := policy_rules_of item.2 |}.

(** The key under which it is stored. *)
Definition policy_key (item : string * list at_types.ZoneRuleRaw) : string :=
  normalize_name item.1.

(** The [zone_policies] attribute once [_generate_policies] has run. *)
Definition policies_after (self : InlineZoneInfo) : ZonePolicyMap :=
  assign_all policy_key policy_of (policies_map self) (zone_policies self).

(** An era can be generated when its policy is a sentinel or is a key of
    [zone_policies]. *)
Definition resolvable (zp : ZonePolicyMap) (era : at_types.ZoneEraRaw) : Prop :=
  at_types.rules era = "-" \/ at_types.rules era = ":" \/
  is_Some (zp !! normalize_name (at_types.rules era)).

(** What lines 119-125 leave in [zone_policy]. *)
Definition zone_policy_rel (zp : ZonePolicyMap) (era : at_types.ZoneEraRaw)
    (v : ZonePolicyOrStr) : Prop :=
  (at_types.rules era = "-" /\ v = IsStr "-") \/
  (at_types.rules era = ":" /\ v = IsStr ":") \/
  (at_types.rules era <> "-" /\ at_types.rules era <> ":" /\
   exists p, zp !! normalize_name (at_types.rules era) = Some p /\ v = IsPolicy p).

(** The [ZoneEra] generated for an era. *)
Definition era_rel (zp : ZonePolicyMap) (era : at_types.ZoneEraRaw) (ze : ZoneEra) : Prop :=
  exists v, zone_policy_rel zp era v /\ ze = zone_era_with era v.

(** The [ZoneInfo] of a zone with its generated eras. *)
Definition zone_info_of (b : string * list ZoneEra) : ZoneInfo :=
  zone_info_dict b.1 b.2.

(** The generated eras of an item of [zones_map]. *)
Definition info_rel (zp : ZonePolicyMap) (item : string * list at_types.ZoneEraRaw)
    (b : string * list ZoneEra) : Prop :=
  b.1 = item.1 /\ Forall2 (era_rel zp) item.2 b.2.

(** An object whose [zone_policies] has normalized policy names for keys
    and whose [zone_infos] has zone names for keys: the object that
    [__init__] builds, and the object after any call. *)
Definition keys_from_inputs (self : InlineZoneInfo) : Prop :=
  (forall k, is_Some (zone_policies self !! k) ->
     exists n, n ∈ (policies_map self).*1 /\ k = normalize_name n) /\
  (forall k, is_Some (zone_infos self !! k) -> k ∈ (zones_map self).*1).

End generated.

(** ** A concrete [normalize_name] *)
Module transformer.

(** An upper-case letter of ASCII as its lower-case letter, any other
    character as it is. *)
Definition lower (c : ascii) : ascii :=
  let n := nat_of_ascii c in
  if ((65 <=? n)%nat && (n <=? 90)%nat)%bool then ascii_of_nat (n + 32) else c.

(** Modelled from the spec: [normalize_name] of
    [acetimetools.transformer.transformer], which the module imports and
    the sources do not contain.  Section 6: "[normalize(name)] is used as
    the key (lowercase, punctuation preserved, path separators kept)". *)
Fixpoint normalize_name (name : string) : string :=
  match name with
  | EmptyString => EmptyString
  | String c rest => String (lower c) (normalize_name rest)
  end.

End transformer.

(** ** A small database

    Two policies and five zones in the shape that the data compiler hands
    over; ["US/Pacific"] is the link to ["America/Los_Angeles"] of the
    tests, with the eras of its target.  [normalize_name] is the one of
    module [transformer]. *)
Module sample.

Definition rule_US_spring : at_types.ZoneRuleRaw :=
  {| at_types.from_year := 1987; at_types.to_year := 2006;
     at_types.in_month := 4; at_types.on_day_of_week := 7;
     at_types.on_day_of_month := 1;
     at_types.at_seconds_truncated := 7200; at_types.at_time_suffix := "w";
     at_types.delta_seconds_truncated := 3600; at_types.letter := "D" |}.

Definition rule_US_fall : at_types.ZoneRuleRaw :=
  {| at_types.from_year := 1967; at_types.to_year := 2006;
     at_types.in_month := 10; at_types.on_day_of_week := 7;
     at_types.on_day_of_month := 0;
     at_types.at_seconds_truncated := 7200; at_types.at_time_suffix := "w";
     at_types.delta_seconds_truncated := 0; at_types.letter := "S" |}.

Definition rule_W_Eur_spring : at_types.ZoneRuleRaw :=
  {| at_types.from_year := 1981; at_types.to_year := 9999;
     at_types.in_month := 3; at_types.on_day_of_week := 7;
     at_types.on_day_of_month := 0;
     at_types.at_seconds_truncated := 3600; at_types.at_time_suffix := "s";
     at_types.delta_seconds_truncated := 3600; at_types.letter := "S" |}.

Definition pm : at_types.PoliciesMap :=
  [("US", [rule_US_spring; rule_US_fall]); ("W-Eur", [rule_W_Eur_spring])].

Definition era (rules : string) (offset delta : Z) (format : string) : at_types.ZoneEraRaw :=
  {| at_types.rules := rules;
     at_types.offset_seconds_truncated := offset;
     at_types.rules_delta_seconds_truncated := delta;
     at_types.format := format;
     at_types.until_year := 10000; at_types.until_month := 1;
     at_types.until_day := 1; at_types.until_seconds_truncated := 0;
     at_types.until_time_suffix := "w" |}.

Definition eras_Los_Angeles := [era "US" (-28800) 0 "P%sT"].

Definition zm : at_types.ZonesMap :=
  [("America/Los_Angeles", eras_Los_Angeles);
   ("US/Pacific", eras_Los_Angeles);
   ("Etc/UTC", [era "-" 0 0 "UTC"]);
   ("Europe/Lisbon", [era "W-Eur" 0 0 "WE%sT"]);
   ("Asia/Kolkata", [era ":" 19800 3600 "+0630"])].

Definition self : InlineZoneInfo := __init__ zm pm.

Definition run := generate_zonedb transformer.normalize_name self.

Definition infos : ZoneInfoMap :=
  match run.1 with inr (infos, _) => infos | inl _ => ∅ end.

Definition policies : ZonePolicyMap :=
  match run.1 with inr (_, policies) => policies | inl _ => ∅ end.

End sample.

(** ** The loops as functions of the policies map *)

Section runs.

Variable normalize_name : string -> string.

(** Lines 119-125 on a given policies map: the [zone_policy] of an era, or
    the [KeyError] of its normalized policy name. *)
Definition zone_policy_in (zp : ZonePolicyMap) (era : at_types.ZoneEraRaw)
    : exn + ZonePolicyOrStr :=
  if bool_decide (at_types.rules era ∈ ["-"; ":"]) then inr (IsStr (at_types.rules era))
  else
    match zp !! normalize_name (at_types.rules era) with
    | Some p => inr (IsPolicy p)
    | None => inl (KeyError (normalize_name (at_types.rules era)))
    end.

(** Lines 117-139 on a given policies map: the [zone_eras] of a zone, or the
    [KeyError] of its first era without a policy. *)
Fixpoint zone_eras_in (zp : ZonePolicyMap) (eras : list at_types.ZoneEraRaw)
    : exn + list ZoneEra :=
  match eras with
  | [] => inr []
  | era :: eras' =>
      match zone_policy_in zp era with
      | inl e => inl e
      | inr v =>
          match zone_eras_in zp eras' with
          | inl e => inl e
          | inr zone_eras => inr (zone_era_with era v :: zone_eras)
          end
      end
  end.

(** Lines 116-140 on a given policies map: the zones whose [ZoneInfo] is
    stored, in order, and the [KeyError] at which the loop stops, if any. *)
Fixpoint zone_infos_in (zp : ZonePolicyMap)
    (items : list (string * list at_types.ZoneEraRaw))
    : list (string * list ZoneEra) * option exn :=
  match items with
  | [] => ([], None)
  | (zone_name, eras) :: items' =>
      match zone_eras_in zp eras with
      | inl e => ([], Some e)
      | inr zone_eras =>
          ((zone_name, zone_eras) :: (zone_infos_in zp items').1,
           (zone_infos_in zp items').2)
      end
  end.

(** The object after a call, and what the call returns or raises. *)
Definition object_after (self : InlineZoneInfo) : InlineZoneInfo :=
  {| zones_map := zones_map self;
     policies_map := policies_map self;
     zone_infos :=
       assign_all fst zone_info_of
         (zone_infos_in (policies_after normalize_name self) (zones_map self)).1
         (zone_infos self);
     zone_policies := policies_after normalize_name self |}.

Definition outcome (self : InlineZoneInfo) : exn + (ZoneInfoMap * ZonePolicyMap) :=
  match (zone_infos_in (policies_after normalize_name self) (zones_map self)).2 with
  | Some e => inl e
  | None => inr (zone_infos (object_after self), zone_policies (object_after self))
  end.

End runs.

(** ** More small inputs: names that meet under one key, a policy that is
    missing, other orders *)

Module sample2.

(** Two policies whose names differ in case alone, with another between *)
Definition pm_same_key : at_types.PoliciesMap :=
  [("EU", [sample.rule_W_Eur_spring]);
   ("US", [sample.rule_US_spring; sample.rule_US_fall]);
   ("eu", [sample.rule_US_fall])].

Definition zm_Paris : at_types.ZonesMap :=
  [("Europe/Paris", [sample.era "-" 561 0 "LMT"; sample.era "EU" 3600 0 "CE%sT"])].

Definition self_same_key : InlineZoneInfo := __init__ zm_Paris pm_same_key.

Definition run_same_key := generate_zonedb transformer.normalize_name self_same_key.

Definition infos_same_key : ZoneInfoMap :=
  match run_same_key.1 with inr (infos, _) => infos | inl _ => ∅ end.

Definition policies_same_key : ZonePolicyMap :=
  match run_same_key.1 with inr (_, policies) => policies | inl _ => ∅ end.

(** The second era of the second zone names a policy that [sample.pm]
    does not have *)
Definition era_EU : at_types.ZoneEraRaw := sample.era "EU" 3600 0 "CE%sT".

Definition zm_unknown : at_types.ZonesMap :=
  [("Etc/UTC", [sample.era "-" 0 0 "UTC"]);
   ("Europe/Paris", [sample.era ":" 561 0 "LMT"; era_EU; sample.era "US" 3600 0 "CE%sT"]);
   ("America/Los_Angeles", sample.eras_Los_Angeles)].

(** The inputs of [sample] in the other order *)
Definition zm_reversed : at_types.ZonesMap := reverse sample.zm.

Definition pm_reversed : at_types.PoliciesMap := reverse sample.pm.

(** A policy that no zone of [sample.zm] uses *)
Definition pm_unused : at_types.PoliciesMap := [("EU", [sample.rule_W_Eur_spring])].

End sample2.

(** * Part two: the time-zone engine

    The engine itself ([acetime.acetz], its zone processor and the zone
    database) is not among the sources: only its tests are
    ([src/tests/test_acetz.py]).  The module below is written from the
    specification, section by section; the tests are then run against it.
    Instants are seconds from the Unix epoch, as in the scenarios of
    section 8. *)
Module engine.

Local Open Scope Z_scope.

(** ** Errors (section 7) *)

(** Modelled from the spec: the error kinds of section 7, "all returned,
    none thrown past the boundary". *)
Inductive Error :=
  | NotFound
  | OutOfRange
  | InvalidCivilTime
  | InvalidRuleDay
  | InconsistentRuleSet.

(** Modelled from the spec: what an operation of the engine returns, a
    value or one of the error kinds. *)
Inductive Result (A : Type) :=
  | Ok (a : A)
  | Err (e : Error).
Arguments Ok {A} a.
Arguments Err {A} e.

(** Modelled from the spec: section 7, failures "are fatal for the query
    that triggered them": the first error ends the computation. *)
Definition and_then {A B} (r : Result A) (k : A -> Result B) : Result B :=
  match r with
  | Ok a => k a
  | Err e => Err e
  end.

Notation "'let?' x ':=' r 'in' k" := (and_then r (fun x => k))
  (at level 10, x pattern, r at level 100, k at level 200).

(** Modelled from the spec: a step repeated over a sequence, which fails
    as soon as one step does. *)
Fixpoint map_result {A B} (f : A -> Result B) (l : list A) : Result (list B) :=
  match l with
  | [] => Ok []
  | x :: l' =>
      let? y := f x in
      let? ys := map_result f l' in
      Ok (y :: ys)
  end.

(** ** Data model (section 3) *)

(** Modelled from the spec: section 9, "string-valued discriminators
    (["w"]/["s"]/["u"])" replaced "by enumerations at table-build time". *)
Inductive TimeSuffix :=
  | Wall
  | Standard
  | Universal.

(** Modelled from the spec: [MAX], the open end of [to_year] and
    [until_year] (section 3), which the specification does not give a
    value; any year beyond the tabulated horizon does. *)
Definition MAX : Z := 9999.

(** Modelled from the spec: the [ZoneRule] of section 3. *)
Record ZoneRule := {
  from_year : Z;
  to_year : Z;
  in_month : Z;
  on_day_of_week : Z;
  on_day_of_month : Z;
  at_seconds : Z;
  at_time_suffix : TimeSuffix;
  delta_seconds : Z;
  letter : string;
}.

(** Modelled from the spec: "ZonePolicy: a name plus an ordered set of
    ZoneRule". *)
Record ZonePolicy := {
  policy_name : string;
  rules : list ZoneRule;
}.

(** Modelled from the spec: section 9, "a three-variant tagged union:
    [Policy(handle) | Fixed | None]"; [Fixed] is the [":"] of the source
    data and [NoPolicy] its ["-"]. *)
Inductive PolicyRef :=
  | Policy (p : ZonePolicy)
  | Fixed
  | NoPolicy.

(** Modelled from the spec: the [ZoneEra] of section 3. *)
Record ZoneEra := {
  offset_seconds : Z;
  zone_policy : PolicyRef;
  rules_delta_seconds : Z;
  format : string;
  until_year : Z;
  until_month : Z;
  until_day : Z;
  until_seconds : Z;
  until_time_suffix : TimeSuffix;
}.

(** Modelled from the spec: the [ZoneInfo] of section 3, "canonical name,
    ordered list of ZoneEra; and optional link_target". *)
#[warnings="-register-all"] Inductive ZoneInfo :=
  | Build_ZoneInfo (name : string) (eras : list ZoneEra) (link_target : option ZoneInfo).

(** Modelled from the spec: the three fields of [ZoneInfo]. *)
Definition name (z : ZoneInfo) : string :=
  match z with Build_ZoneInfo n _ _ => n end.

(** Modelled from the spec: the eras that the entry itself lists. *)
Definition eras (z : ZoneInfo) : list ZoneEra :=
  match z with Build_ZoneInfo _ e _ => e end.

(** Modelled from the spec: the target, "when the ZoneInfo is a pure
    alias". *)
Definition link_target (z : ZoneInfo) : option ZoneInfo :=
  match z with Build_ZoneInfo _ _ l => l end.

(** Modelled from the spec: the [ActiveTransition] of section 3;
    [total_offset] is "seconds from UT = era.offset + active dst". *)
Record ActiveTransition := {
  start_instant : Z;
  until_instant : Z;
  utc_offset : Z;
  dst_offset : Z;
  abbreviation : string;
  fold : Z;
}.

(** Modelled from the spec: "total_offset (seconds from UT = era.offset +
    active dst)". *)
Definition total_offset (t : ActiveTransition) : Z :=
  utc_offset t + dst_offset t.

(** Modelled from the spec: the "-∞ sentinel" of section 4.4, the least
    "64-bit second count" of section 6. *)
Definition NEG_INF : Z := - 2 ^ 63.

(** Modelled from the spec: the "+∞ sentinel", the greatest second count. *)
Definition POS_INF : Z := 2 ^ 63 - 1.

(** ** Calendar primitives (section 4.1) *)

(** Modelled from the spec: the leap years of the "proleptic-Gregorian"
    calendar of section 4.1. *)
Definition is_leap_year (y : Z) : bool :=
  (y mod 4 =? 0) && (negb (y mod 100 =? 0) || (y mod 400 =? 0)).

(** Modelled from the spec: the length of a month, the bound of "outside
    the month" in section 4.1. *)
Definition days_in_month (y m : Z) : Z :=
  if m =? 2 then (if is_leap_year y then 29 else 28)
  else if (m =? 4) || (m =? 6) || (m =? 9) || (m =? 11) then 30
  else 31.

(** Modelled from the spec: [days_from_epoch(y,m,d)], the day count of a
    proleptic-Gregorian date, here from 1970-01-01.  Years are counted from
    March, in cycles of 400 years (146097 days). *)
Definition days_from_epoch (y m d : Z) : Z :=
  let y' := if m <=? 2 then y - 1 else y in
  let cycle := y' / 400 in
  let year_of_cycle := y' - cycle * 400 in
  let month_from_march := (m + 9) mod 12 in
  let day_of_year := (153 * month_from_march + 2) / 5 + d - 1 in
  let day_of_cycle :=
    year_of_cycle * 365 + year_of_cycle / 4 - year_of_cycle / 100 + day_of_year in
  cycle * 146097 + day_of_cycle - 719468.

(** Modelled from the spec: "and its inverse". *)
Definition date_from_days (n : Z) : Z * Z * Z :=
  let z := n + 719468 in
  let cycle := z / 146097 in
  let day_of_cycle := z - cycle * 146097 in
  let year_of_cycle :=
    (day_of_cycle - day_of_cycle / 1460 + day_of_cycle / 36524
       - day_of_cycle / 146096) / 365 in
  let day_of_year :=
    day_of_cycle - (365 * year_of_cycle + year_of_cycle / 4 - year_of_cycle / 100) in
  let month_from_march := (5 * day_of_year + 2) / 153 in
  let d := day_of_year - (153 * month_from_march + 2) / 5 + 1 in
  let m := if month_from_march <? 10 then month_from_march + 3 else month_from_march - 9 in
  let y := year_of_cycle + cycle * 400 in
  (if m <=? 2 then y + 1 else y, m, d).

(** Modelled from the spec: [day_of_week(y,m,d)] "returning 1-7", Monday
    to Sunday (section 3); 1970-01-01 was a Thursday. *)
Definition day_of_week (y m d : Z) : Z :=
  (days_from_epoch y m d + 3) mod 7 + 1.

(** Modelled from the spec: [resolve_day_of_month], the four cases of
    section 4.1; it "fails with InvalidRuleDay if the search would fall
    outside the month". *)
Definition resolve_day_of_month (y m on_day_of_week on_day_of_month : Z) : Result Z :=
  if on_day_of_week =? 0 then Ok on_day_of_month
  else if 0 <? on_day_of_month then
    let d := on_day_of_month
             + (on_day_of_week - day_of_week y m on_day_of_month) mod 7 in
    if d <=? days_in_month y m then Ok d else Err InvalidRuleDay
  else
    let limit := if on_day_of_month =? 0 then days_in_month y m
                 else - on_day_of_month in
    let d := limit - (day_of_week y m limit - on_day_of_week) mod 7 in
    if 1 <=? d then Ok d else Err InvalidRuleDay.

(** Modelled from the spec: the "wall date-time [(year, in_month, day,
    at_seconds)]" of section 4.2 as a count of seconds, "seconds-of-day
    arithmetic" on top of the day count. *)
Definition civil_seconds (y m d seconds_of_day : Z) : Z :=
  days_from_epoch y m d * 86400 + seconds_of_day.

(** Modelled from the spec: [start_of(Y)], the first instant of a year. *)
Definition start_of (y : Z) : Z := civil_seconds y 1 1 0.

(** Modelled from the spec: "compute Y from s" (section 4.5). *)
Definition year_of_instant (s : Z) : Z := (date_from_days (s / 86400)).1.1.

(** Modelled from the spec: the validation behind [InvalidCivilTime],
    "date components fail calendar validation (month 0, Feb 30, etc.)". *)
Definition valid_civil_time (y m d H M S : Z) : bool :=
  (1 <=? m) && (m <=? 12) && (1 <=? d) && (d <=? days_in_month y m)
  && (0 <=? H) && (H <? 24) && (0 <=? M) && (M <? 60) && (0 <=? S) && (S <? 60).

(** ** Rule expander (section 4.2) *)

(** Modelled from the spec: "[CandidateTransition { ut_instant, dst_offset,
    letter }]". *)
Record CandidateTransition := {
  ut_instant : Z;
  candidate_dst_offset : Z;
  candidate_letter : string;
}.

(** Modelled from the spec: step 3, "For [u]: add 0. For [s]: subtract
    era.offset. For [w]: subtract era.offset plus the dst_offset" in effect
    just before. *)
Definition to_ut (suffix : TimeSuffix) (wall offset dst : Z) : Z :=
  match suffix with
  | Universal => wall
  | Standard => wall - offset
  | Wall => wall - (offset + dst)
  end.

(** Modelled from the spec: the pairs (rule, year) of "each rule whose
    [[from_year, to_year]] includes one of {Y-1, Y, Y+1}". *)
Definition rule_year_pairs (p : ZonePolicy) (Y : Z) : list (ZoneRule * Z) :=
  flat_map
    (fun y => map (fun r => (r, y))
                (List.filter (fun r => (from_year r <=? y) && (y <=? to_year r)) (rules p)))
    [Y - 1; Y; Y + 1].

(** Modelled from the spec: steps 1 and 2, the wall date-time
    "[(year, in_month, day, at_seconds)]" of a rule in a year. *)
Definition rule_wall (r : ZoneRule) (y : Z) : Result Z :=
  let? d := resolve_day_of_month y (in_month r) (on_day_of_week r) (on_day_of_month r) in
  Ok (civil_seconds y (in_month r) d (at_seconds r)).

(** Modelled from the spec: insertion into the candidates "sorted" by
    their time (invariant 2 of section 3); equal times keep their order. *)
Fixpoint insert_by_wall (x : Z * ZoneRule) (l : list (Z * ZoneRule)) : list (Z * ZoneRule) :=
  match l with
  | [] => [x]
  | y :: l' => if x.1 <? y.1 then x :: l else y :: insert_by_wall x l'
  end.

(** Modelled from the spec: the pairs in the order of their wall times, so
    that "the previous candidate" of step 3 is the one that fires just
    before. *)
Definition sort_by_wall (l : list (Z * ZoneRule)) : list (Z * ZoneRule) :=
  fold_left (fun sorted x => insert_by_wall x sorted) l [].

(** Modelled from the spec: step 3 along the expansion, "the dst_offset of
    the previous candidate of the same rule-expansion (bootstrap: 0)". *)
Fixpoint normalize_to_ut (offset previous_dst : Z) (l : list (Z * ZoneRule))
    : list (Z * ZoneRule) :=
  match l with
  | [] => []
  | (wall, r) :: l' =>
      (to_ut (at_time_suffix r) wall offset previous_dst, r)
        :: normalize_to_ut offset (delta_seconds r) l'
  end.

(** Modelled from the spec: the tie-break of section 4.2, "the one with
    the larger from_year wins; if still tied the one whose delta_seconds is
    non-zero wins"; two rules that are still tied with different non-zero
    deltas "produce colliding UT instants with incompatible offsets"
    (section 7). *)
Definition winner (a b : Z * ZoneRule) : Result (Z * ZoneRule) :=
  if from_year b.2 <? from_year a.2 then Ok a
  else if from_year a.2 <? from_year b.2 then Ok b
  else if delta_seconds a.2 =? delta_seconds b.2 then Ok b
  else if delta_seconds b.2 =? 0 then Ok a
  else if delta_seconds a.2 =? 0 then Ok b
  else Err InconsistentRuleSet.

(** Modelled from the spec: the tie-break along the candidates: of
    candidates with "identical ut_instant" the winner stays. *)
Fixpoint break_ties (l : list (Z * ZoneRule)) : Result (list (Z * ZoneRule)) :=
  match l with
  | [] => Ok []
  | a :: l' =>
      let? rest := break_ties l' in
      match rest with
      | b :: rest' =>
          if a.1 =? b.1 then (let? w := winner a b in Ok (w :: rest'))
          else Ok (a :: rest)
      | [] => Ok [a]
      end
  end.

(** Modelled from the spec: the rule expander, from "a policy, a target
    year Y, and the era's standard offset" to the candidates in the order
    of their instants. *)
Definition expand (p : ZonePolicy) (Y offset : Z) : Result (list CandidateTransition) :=
  let? walls :=
    map_result (fun ry : ZoneRule * Z => let? w := rule_wall ry.1 ry.2 in Ok (w, ry.1))
      (rule_year_pairs p Y) in
  let? winners := break_ties (normalize_to_ut offset 0 (sort_by_wall walls)) in
  Ok (map (fun c : Z * ZoneRule =>
             {| ut_instant := c.1;
                candidate_dst_offset := delta_seconds c.2;
                candidate_letter := letter c.2 |}) winners).

(** ** Abbreviations (section 4.4, step 6) *)

(** Modelled from the spec: the two halves of a "slash-separated STD/DST
    pair" (section 3), if the format has a slash. *)
Fixpoint split_at_slash (s : string) : option (string * string) :=
  match s with
  | EmptyString => None
  | String c rest =>
      if Ascii.eqb c "/" then Some (EmptyString, rest)
      else match split_at_slash rest with
           | Some (before, after) => Some (String c before, after)
           | None => None
           end
  end.

(** Modelled from the spec: the format with its "[%s] slot substituted by
    the rule letter" (section 3), if it has a slot. *)
Fixpoint substitute_slot (s by_letter : string) : option string :=
  match s with
  | EmptyString => None
  | String c rest =>
      match rest with
      | String c' rest' =>
          if Ascii.eqb c "%" && Ascii.eqb c' "s" then Some (String.append by_letter rest')
          else option_map (String c) (substitute_slot rest by_letter)
      | EmptyString => None
      end
  end.

(** Modelled from the spec: "no slot and no slash: literal; slash form
    [STD/DST]: pick by whether dst_offset == 0; slot form: substitute the
    rule letter (the sentinel [-] becomes the empty substitution)". *)
Definition resolve_abbreviation (format letter : string) (dst : Z) : string :=
  match split_at_slash format with
  | Some (std, daylight) => if dst =? 0 then std else daylight
  | None =>
      match substitute_slot format (if String.eqb letter "-" then EmptyString else letter) with
      | Some s => s
      | None => format
      end
  end.

(** ** Era selector (section 4.3) and transition builder (section 4.4) *)

(** Modelled from the spec: step 3 of the builder, the candidates of an
    era: those of its policy, "a single candidate from
    [rules_delta_seconds] if policy is [FIXED], or no candidates if
    [NONE]". *)
Definition era_candidates (era : ZoneEra) (start Y : Z) : Result (list CandidateTransition) :=
  match zone_policy era with
  | Policy p => expand p Y (offset_seconds era)
  | Fixed =>
      Ok [{| ut_instant := start;
             candidate_dst_offset := rules_delta_seconds era;
             candidate_letter := "-" |}]
  | NoPolicy => Ok []
  end.

(** Modelled from the spec: "Era until-times are resolved in UT by the same
    suffix rules as 4.2", with the era's standard offset and the "last dst
    in effect"; "the final era has until_year = [MAX]". *)
Definition era_until_ut (era : ZoneEra) (dst : Z) : Z :=
  if until_year era =? MAX then POS_INF
  else to_ut (until_time_suffix era)
         (civil_seconds (until_year era) (until_month era) (until_day era)
            (until_seconds era))
         (offset_seconds era) dst.

(** Modelled from the spec: a "transition event" of step 4 of the builder:
    the dst offset and letter in force from an instant on. *)
Record Event := {
  event_ut : Z;
  event_dst : Z;
  event_letter : string;
}.

(** Modelled from the spec: the events of an era from its candidates in
    the order of their instants: those up to the start of the era give the
    state at its start, the others open an interval each, until the era
    ends; the end is resolved with the "last dst in effect". *)
Fixpoint era_events (era : ZoneEra) (start : Z) (candidates : list CandidateTransition)
    (closed : list Event) (current : Event) : list Event * Z :=
  match candidates with
  | [] => (closed ++ [current], era_until_ut era (event_dst current))
  | c :: candidates' =>
      if era_until_ut era (event_dst current) <=? ut_instant c then
        (closed ++ [current], era_until_ut era (event_dst current))
      else if ut_instant c <=? start then
        era_events era start candidates' closed
          {| event_ut := start;
             event_dst := candidate_dst_offset c;
             event_letter := candidate_letter c |}
      else
        era_events era start candidates' (closed ++ [current])
          {| event_ut := ut_instant c;
             event_dst := candidate_dst_offset c;
             event_letter := candidate_letter c |}
  end.

(** Modelled from the spec: the events of an era, from the "bootstrap" of
    no dst offset. *)
Definition era_events_from (era : ZoneEra) (start : Z) (candidates : list CandidateTransition)
    : list Event * Z :=
  era_events era start candidates []
    {| event_ut := start; event_dst := 0; event_letter := "-" |}.

(** Modelled from the spec: an era with its "validity half-open interval"
    in UT (section 4.3). *)
Record EraMatch := {
  match_era : ZoneEra;
  match_start : Z;
  match_until : Z;
}.

(** Modelled from the spec: the validity intervals "[[prev.until,
    this.until)]" of the eras of a zone, the first of which has no lower
    bound.  An era whose rules cannot be expanded is bounded as one without
    candidates. *)
Fixpoint era_intervals (eras : list ZoneEra) (Y start : Z) : list EraMatch :=
  match eras with
  | [] => []
  | era :: eras' =>
      let candidates :=
        match era_candidates era start Y with Ok l => l | Err _ => [] end in
      let until := (era_events_from era start candidates).2 in
      {| match_era := era; match_start := start; match_until := until |}
        :: era_intervals eras' Y until
  end.

(** Modelled from the spec: the era selector, "the sequence of eras whose
    validity half-open interval [[prev.until, this.until)] intersects the
    span [[start_of(Y-1), start_of(Y+2))]". *)
Definition select_eras (eras : list ZoneEra) (Y : Z) : list EraMatch :=
  List.filter
    (fun m => (match_start m <? start_of (Y + 2)) && (start_of (Y - 1) <? match_until m))
    (era_intervals eras Y NEG_INF).

(** Modelled from the spec: the intervals of an era, each "tagged with its
    owning era" through the standard offset and the abbreviation it is
    given (steps 4 and 6). *)
Fixpoint era_transitions (era : ZoneEra) (events : list Event) (until : Z)
    : list ActiveTransition :=
  match events with
  | [] => []
  | e :: events' =>
      {| start_instant := event_ut e;
         until_instant := match events' with e' :: _ => event_ut e' | [] => until end;
         utc_offset := offset_seconds era;
         dst_offset := event_dst e;
         abbreviation := resolve_abbreviation (format era) (event_letter e) (event_dst e);
         fold := 0 |}
        :: era_transitions era events' until
  end.

(** Modelled from the spec: "constant (utc_offset, dst_offset,
    abbreviation)" (step 5). *)
Definition same_state (a b : ActiveTransition) : bool :=
  (utc_offset a =? utc_offset b) && (dst_offset a =? dst_offset b)
  && String.eqb (abbreviation a) (abbreviation b).

(** Modelled from the spec: a transition with its [until_instant]
    moved. *)
Definition with_until (t : ActiveTransition) (until : Z) : ActiveTransition :=
  {| start_instant := start_instant t; until_instant := until;
     utc_offset := utc_offset t; dst_offset := dst_offset t;
     abbreviation := abbreviation t; fold := fold t |}.

(** Modelled from the spec: a transition with its [start_instant]
    moved. *)
Definition with_start (t : ActiveTransition) (start : Z) : ActiveTransition :=
  {| start_instant := start; until_instant := until_instant t;
     utc_offset := utc_offset t; dst_offset := dst_offset t;
     abbreviation := abbreviation t; fold := fold t |}.

(** Modelled from the spec: a transition with "a [fold] hint (0 for first
    occurrence of an ambiguous wall time, 1 for the second)". *)
Definition with_fold (t : ActiveTransition) (fold : Z) : ActiveTransition :=
  {| start_instant := start_instant t; until_instant := until_instant t;
     utc_offset := utc_offset t; dst_offset := dst_offset t;
     abbreviation := abbreviation t; fold := fold |}.

(** Modelled from the spec: step 5, "each emitted [ActiveTransition] covers
    a maximal run of constant (utc_offset, dst_offset, abbreviation)". *)
Fixpoint compress (l : list ActiveTransition) : list ActiveTransition :=
  match l with
  | [] => []
  | a :: l' =>
      match compress l' with
      | b :: rest =>
          if same_state a b then with_until a (until_instant b) :: rest
          else a :: b :: rest
      | [] => [a]
      end
  end.

(** Modelled from the spec: the output "fully covering the calendar
    interval [[start_of(Y), start_of(Y+1))] plus one sentinel transition
    extending into Y+1"; what lies before the year is clipped. *)
Fixpoint clip (l : list ActiveTransition) (lo hi : Z) : list ActiveTransition :=
  match l with
  | [] => []
  | t :: l' =>
      if until_instant t <=? lo then clip l' lo hi
      else if start_instant t <? hi then t :: clip l' lo hi
      else [t]
  end.

(** Modelled from the spec: step 7 on the last interval. *)
Fixpoint extend_last (l : list ActiveTransition) (hi : Z) : list ActiveTransition :=
  match l with
  | [] => []
  | [t] => [with_until t (Z.max (until_instant t) hi)]
  | t :: l' => t :: extend_last l' hi
  end.

(** Modelled from the spec: step 7, "close the first and last interval by
    extending them to the query window's bounds"; the infinite bounds of the
    first and of the last era are kept. *)
Definition close (l : list ActiveTransition) (lo hi : Z) : list ActiveTransition :=
  match l with
  | [] => []
  | t :: l' => extend_last (with_start t (Z.min (start_instant t) lo) :: l') hi
  end.

(** Modelled from the spec: step 1, "if Z has a link_target, substitute its
    eras". *)
Fixpoint resolved_eras (z : ZoneInfo) : list ZoneEra :=
  match z with
  | Build_ZoneInfo _ eras None => eras
  | Build_ZoneInfo _ _ (Some target) => resolved_eras target
  end.

(** Modelled from the spec: the transition builder of section 4.4 for a
    list of eras.  The year cache of section 4.6 memoizes this function and
    is left out: "builds are idempotent". *)
Definition build_from_eras (eras : list ZoneEra) (Y : Z) : Result (list ActiveTransition) :=
  let? per_era :=
    map_result
      (fun m =>
         let? candidates := era_candidates (match_era m) (match_start m) Y in
         let '(events, until) := era_events_from (match_era m) (match_start m) candidates in
         Ok (era_transitions (match_era m) events until))
      (select_eras eras Y) in
  Ok (close (clip (compress (concat per_era)) (start_of Y) (start_of (Y + 1)))
        (start_of (Y - 1)) (start_of (Y + 2))).

(** Modelled from the spec: the transition builder for "zone Z, target
    year Y": step 1, then the rest on the eras. *)
Definition build_transitions (z : ZoneInfo) (Y : Z) : Result (list ActiveTransition) :=
  build_from_eras (resolved_eras z) Y.

(** ** Query surface (section 4.5) *)

(** Modelled from the spec: "[start <= s < until]". *)
Definition contains (t : ActiveTransition) (s : Z) : bool :=
  (start_instant t <=? s) && (s <? until_instant t).

(** Modelled from the spec: "a transition claims the local time if, after
    subtracting its total_offset, the resulting UT instant lies within its
    [[start, until)]". *)
Definition claims (t : ActiveTransition) (L : Z) : bool :=
  contains t (L - total_offset t).

(** Modelled from the spec: the claimants of a local time, in the order
    of the list. *)
Definition claimants (ts : list ActiveTransition) (L : Z) : list ActiveTransition :=
  List.filter (fun t => claims t L) ts.

(** Modelled from the spec: the instant of a local time under a
    transition, "subtracting its total_offset". *)
Definition epoch_of_local (L : Z) (t : ActiveTransition) : Z :=
  L - total_offset t.

(** Modelled from the spec: the lookup of [info_for_epoch], "the unique
    entry with [start <= s < until]", or [OutOfRange].  The [fold] hint is 1
    when the local time of [s] has occurred before. *)
Definition find_for_epoch (ts : list ActiveTransition) (s : Z) : Result ActiveTransition :=
  match List.find (fun t => contains t s) ts with
  | Some t =>
      let again :=
        existsb (fun t' => (start_instant t' <? start_instant t)
                           && claims t' (s + total_offset t)) ts in
      Ok (with_fold t (if again then 1 else 0))
  | None => Err OutOfRange
  end.

(** Modelled from the spec: the three outcomes of [info_for_local].  Unique
    claim: that transition.  Two claimants: "the earlier when fold = 0, the
    later when fold = 1".  Zero claimants: "the transition immediately
    before the gap when fold = 0, immediately after when fold = 1".
    Claimants beyond the second, which the specification does not consider,
    are ignored. *)
Definition find_for_local (ts : list ActiveTransition) (L fold : Z) : Result ActiveTransition :=
  match claimants ts L with
  | [t] => Ok (with_fold t 0)
  | t1 :: t2 :: _ => if fold =? 0 then Ok (with_fold t1 0) else Ok (with_fold t2 1)
  | [] =>
      let before :=
        List.find (fun t => until_instant t + total_offset t <=? L) (rev ts) in
      let after :=
        List.find (fun t => L <? start_instant t + total_offset t) ts in
      match (if fold =? 0 then before else after) with
      | Some t => Ok (with_fold t fold)
      | None => Err OutOfRange
      end
  end.

(** Modelled from the spec: [info_for_epoch(Z, s)], "compute Y from s;
    consult cache; binary-search the transition list". *)
Definition info_for_epoch (z : ZoneInfo) (s : Z) : Result ActiveTransition :=
  let? ts := build_transitions z (year_of_instant s) in
  find_for_epoch ts s.

(** Modelled from the spec: [info_for_local(Z, y,m,d,H,M,S, fold)],
    "consult cache for year y"; errors [InvalidCivilTime], [OutOfRange]. *)
Definition info_for_local (z : ZoneInfo) (y m d H M S fold : Z) : Result ActiveTransition :=
  if valid_civil_time y m d H M S then
    let? ts := build_transitions z y in
    find_for_local ts (civil_seconds y m d (H * 3600 + M * 60 + S)) fold
  else Err InvalidCivilTime.

(** Modelled from the spec: the "epoch" that the scenarios of section 8
    give for a local time: its instant under the transition that
    [info_for_local] answers with. *)
Definition epoch_for_local (z : ZoneInfo) (y m d H M S fold : Z) : Result Z :=
  let? t := info_for_local z y m d H M S fold in
  Ok (epoch_of_local (civil_seconds y m d (H * 3600 + M * 60 + S)) t).

(** ** Zone registry (section 6) *)

(** Modelled from the spec: "[get_zone(name) -> ZoneHandle | NotFound]",
    which "accepts canonical or alias names". *)
Definition get_zone (registry : list ZoneInfo) (n : string) : Result ZoneInfo :=
  match List.find (fun z => String.eqb (name z) n) registry with
  | Some z => Ok z
  | None => Err NotFound
  end.

(** Modelled from the spec: the handle "advertises [name()], [is_link()],
    and [canonical_name()]". *)
Definition is_link (z : ZoneInfo) : bool :=
  match link_target z with Some _ => true | None => false end.

(** Modelled from the spec: "[canonical_name()] (follows a link when
    asked)". *)
Fixpoint canonical_name (z : ZoneInfo) : string :=
  match z with
  | Build_ZoneInfo n _ None => n
  | Build_ZoneInfo _ _ (Some target) => canonical_name target
  end.

End engine.

(** ** The zone database of the tests

    [acetime.zonedb] is not among the sources.  The entries that
    [test_acetz.py] asks for are given with the rules in force in the years
    of the tests. *)
Module zonedb.

Import engine.
Local Open Scope Z_scope.

(** Modelled from the spec: a [ZoneRule], field by field. *)
Definition rule (from_year to_year in_month on_day_of_week on_day_of_month : Z)
    (at_seconds : Z) (at_time_suffix : TimeSuffix) (delta_seconds : Z)
    (letter : string) : ZoneRule :=
  {| from_year := from_year; to_year := to_year; in_month := in_month;
     on_day_of_week := on_day_of_week; on_day_of_month := on_day_of_month;
     at_seconds := at_seconds; at_time_suffix := at_time_suffix;
     delta_seconds := delta_seconds; letter := letter |}.

(** Modelled from the spec: an era without end, the last of a zone. *)
Definition last_era (offset_seconds : Z) (zone_policy : PolicyRef) (format : string)
    : ZoneEra :=
  {| offset_seconds := offset_seconds; zone_policy := zone_policy;
     rules_delta_seconds := 0; format := format;
     until_year := MAX; until_month := 1; until_day := 1;
     until_seconds := 0; until_time_suffix := Wall |}.

(** Modelled from the spec: the policy of the scenarios of section 8 for
    America/Los_Angeles: clocks go forward by an hour at 02:00 wall time on
    the first Sunday of April (second Sunday of March from 2007) and back
    at 02:00 on the last Sunday of October (first Sunday of November from
    2007). *)
Definition ZONE_POLICY_US : ZonePolicy :=
  {| policy_name := "US";
     rules := [rule 1967 2006 10 7 0 7200 Wall 0 "S";
               rule 1987 2006 4 7 1 7200 Wall 3600 "D";
               rule 2007 MAX 3 7 8 7200 Wall 3600 "D";
               rule 2007 MAX 11 7 1 7200 Wall 0 "S"] |}.

(** Modelled from the spec: the policy of scenario 6 for Africa/Tunis, with
    daylight time in the summers of 2005 to 2008 and none around the new
    year of 2006; its times are in standard time. *)
Definition ZONE_POLICY_Tunisia : ZonePolicy :=
  {| policy_name := "Tunisia";
     rules := [rule 2005 2005 5 0 1 0 Standard 3600 "S";
               rule 2005 2005 9 0 30 3600 Standard 0 "-";
               rule 2006 2008 3 7 0 7200 Standard 3600 "S";
               rule 2006 2008 10 7 0 7200 Standard 0 "-"] |}.

(** Modelled from the spec: the policy of scenario 7 for Australia/Sydney:
    daylight time ends at 02:00 standard time on the last Sunday of March
    (first Sunday of April from 2008) and begins on the last Sunday of
    October (of August in 2000, first Sunday of October from 2008). *)
Definition ZONE_POLICY_AN : ZonePolicy :=
  {| policy_name := "AN";
     rules := [rule 1987 1999 10 7 0 7200 Standard 3600 "D";
               rule 1996 2005 3 7 0 7200 Standard 0 "S";
               rule 2000 2000 8 7 0 7200 Standard 3600 "D";
               rule 2001 2007 10 7 0 7200 Standard 3600 "D";
               rule 2006 2006 4 7 1 7200 Standard 0 "S";
               rule 2007 2007 3 7 0 7200 Standard 0 "S";
               rule 2008 MAX 4 7 1 7200 Standard 0 "S";
               rule 2008 MAX 10 7 1 7200 Standard 3600 "D"] |}.

(** Modelled from the spec: [ZONE_INFO_America_Los_Angeles], eight hours
    behind UT, abbreviated PST and PDT. *)
Definition ZONE_INFO_America_Los_Angeles : ZoneInfo :=
  Build_ZoneInfo "America/Los_Angeles"
    [last_era (-28800) (Policy ZONE_POLICY_US) "P%sT"] None.

(** Modelled from the spec: [ZONE_INFO_US_Pacific], the link of scenario 5:
    "zone display name is US/Pacific; canonical name is
    America/Los_Angeles". *)
Definition ZONE_INFO_US_Pacific : ZoneInfo :=
  Build_ZoneInfo "US/Pacific" [] (Some ZONE_INFO_America_Los_Angeles).

(** Modelled from the spec: the entry of Africa/Tunis, an hour ahead of UT,
    abbreviated CET and CEST. *)
Definition ZONE_INFO_Africa_Tunis : ZoneInfo :=
  Build_ZoneInfo "Africa/Tunis"
    [last_era 3600 (Policy ZONE_POLICY_Tunisia) "CE%sT"] None.

(** Modelled from the spec: the entry of Australia/Sydney, ten hours ahead
    of UT, abbreviated AEST and AEDT. *)
Definition ZONE_INFO_Australia_Sydney : ZoneInfo :=
  Build_ZoneInfo "Australia/Sydney"
    [last_era 36000 (Policy ZONE_POLICY_AN) "AE%sT"] None.

(** Modelled from the spec: the registry of section 6, with the zones of
    the tests. *)
Definition ZONE_REGISTRY : list ZoneInfo :=
  [ZONE_INFO_America_Los_Angeles; ZONE_INFO_US_Pacific;
   ZONE_INFO_Africa_Tunis; ZONE_INFO_Australia_Sydney].

(** Modelled from the spec: [SECONDS_SINCE_UNIX_EPOCH] of
    [acetime.common], the "constant offset from the standard Unix epoch" of
    section 6, which the tests add to their epoch seconds: they count from
    2000-01-01T00:00:00 UT. *)
Definition SECONDS_SINCE_UNIX_EPOCH : Z := 946684800.

End zonedb.

(** ** The tests of [src/tests/test_acetz.py]

    The tests speak to the engine through Python's [datetime]: an aware
    date-time is its civil fields, its [fold] and its zone.  [timestamp],
    [utcoffset], [dst] and [tzname] ask [info_for_local]; [fromtimestamp]
    followed by [astimezone] asks [info_for_epoch] and reads the civil
    fields off the instant moved by the total offset.  Each test is the
    conjunction of its assertions. *)
Module test_acetz.

Import engine zonedb.
Local Open Scope Z_scope.

(** Modelled from the spec: the date-time of the "outward-facing binding"
    (section 1), which is not among the sources: civil fields, fold and
    zone. *)
Record datetime := {
  year : Z;
  month : Z;
  day : Z;
  hour : Z;
  minute : Z;
  second : Z;
  dt_fold : Z;
  tzinfo : ZoneInfo;
}.

(** Modelled from the spec: the query behind the methods of the binding,
    [info_for_local] on the fields of the date-time. *)
Definition info (dt : datetime) : Result ActiveTransition :=
  info_for_local (tzinfo dt) (year dt) (month dt) (day dt)
    (hour dt) (minute dt) (second dt) (dt_fold dt).

(** Modelled from the spec: [dt.timestamp()], the "epoch" of the
    scenarios. *)
Definition timestamp (dt : datetime) : Result Z :=
  epoch_for_local (tzinfo dt) (year dt) (month dt) (day dt)
    (hour dt) (minute dt) (second dt) (dt_fold dt).

(** Modelled from the spec: [dt.utcoffset()], the total offset. *)
Definition utcoffset (dt : datetime) : Result Z :=
  let? t := info dt in Ok (total_offset t).

(** Modelled from the spec: [dt.dst()], the DST offset. *)
Definition dst (dt : datetime) : Result Z :=
  let? t := info dt in Ok (dst_offset t).

(** Modelled from the spec: [dt.tzname()], the abbreviation. *)
Definition tzname (dt : datetime) : Result string :=
  let? t := info dt in Ok (abbreviation t).

(** Modelled from the spec:
    [datetime.fromtimestamp(unix_seconds, tz=timezone.utc).astimezone(tz)],
    which asks [info_for_epoch] and moves the instant by the total
    offset. *)
Definition fromtimestamp (unix_seconds : Z) (tz : ZoneInfo) : Result datetime :=
  let? t := info_for_epoch tz unix_seconds in
  let local := unix_seconds + total_offset t in
  let '(y, m, d) := date_from_days (local / 86400) in
  let seconds_of_day := local mod 86400 in
  Ok {| year := y; month := m; day := d;
        hour := seconds_of_day / 3600;
        minute := seconds_of_day mod 3600 / 60;
        second := seconds_of_day mod 60;
        dt_fold := fold t; tzinfo := tz |}.

(** [datetime(y, m, d, H, M, S, tzinfo=tz, fold=fold)] *)
Definition mk (y m d H M S : Z) (tz : ZoneInfo) (fold : Z) : datetime :=
  {| year := y; month := m; day := d; hour := H; minute := M; second := S;
     dt_fold := fold; tzinfo := tz |}.

(** [assertEqual] on a number that a query returns. *)
Definition eqZ (expected : Z) (actual : Result Z) : bool :=
  match actual with Ok a => expected =? a | Err _ => false end.

(** [assertEqual] on a string that a query returns. *)
Definition eqS (expected : string) (actual : Result string) : bool :=
  match actual with Ok a => String.eqb expected a | Err _ => false end.

(** The six [assertEqual] on the civil fields of a date-time. *)
Definition fields (dt : datetime) (y m d H M S : Z) : bool :=
  (y =? year dt) && (m =? month dt) && (d =? day dt)
  && (H =? hour dt) && (M =? minute dt) && (S =? second dt).

(** Two aware date-times are equal when they are the same instant. *)
Definition eqDT (a b : datetime) : bool :=
  match timestamp a, timestamp b with
  | Ok x, Ok y => x =? y
  | _, _ => false
  end.

(** [zone_manager.gettz(name)], with [ZoneManager(ZONE_REGISTRY)] *)
Definition gettz (n : string) : Result ZoneInfo := get_zone ZONE_REGISTRY n.

(** A test passes when no query fails and every assertion holds. *)
Definition holds (r : Result bool) : bool :=
  match r with Ok b => b | Err _ => false end.

(** [timedelta(hours=h)], in seconds *)
Definition hours (h : Z) : Z := h * 3600.

(** The two halves that most tests share: the date from the epoch seconds
    and the date from its components. *)
Definition from_epoch_checks (tz : ZoneInfo) (epoch_seconds : Z)
    (y m d H M S : Z) (abbrev : string) (offset_hours dst_hours : Z) : Result bool :=
  let unix_seconds := epoch_seconds + SECONDS_SINCE_UNIX_EPOCH in
  let? dtt := fromtimestamp unix_seconds tz in
  Ok (eqZ (epoch_seconds + SECONDS_SINCE_UNIX_EPOCH) (timestamp dtt)
      && fields dtt y m d H M S
      && eqS abbrev (tzname dtt)
      && eqZ (hours offset_hours) (utcoffset dtt)
      && eqZ (hours dst_hours) (dst dtt)).

(** The assertions on the date from its components: timestamp, [tzname],
    [utcoffset] and [dst]. *)
Definition from_component_checks (dtc : datetime) (unix_seconds : Z)
    (abbrev : string) (offset_hours dst_hours : Z) : bool :=
  eqZ unix_seconds (timestamp dtc)
  && eqS abbrev (tzname dtc)
  && eqZ (hours offset_hours) (utcoffset dtc)
  && eqZ (hours dst_hours) (dst dtc).

(** [TestLosAngeles.test_constructor] *)
Definition test_constructor : bool :=
  holds (
    let? tz := gettz "America/Los_Angeles" in
    let dtc := mk 2000 1 2 3 4 5 tz 0 in
    Ok (fields dtc 2000 1 2 3 4 5
        && eqZ 946811045 (timestamp dtc)
        && eqZ (-8 * 3600) (utcoffset dtc)
        && eqS "PST" (tzname dtc)
        && String.eqb "America/Los_Angeles" (name tz)
        && String.eqb "America/Los_Angeles" (canonical_name tz))).

(** [TestLosAngeles.test_fromtimestamp] *)
Definition test_fromtimestamp : bool :=
  holds (
    let? tz := gettz "America/Los_Angeles" in
    let unix_seconds := 946811045 in
    let? dte := fromtimestamp unix_seconds tz in
    let expected := mk 2000 1 2 3 4 5 tz 0 in
    Ok (eqDT dte expected
        && eqZ (-8 * 3600) (utcoffset dte)
        && eqS "PST" (tzname dte)
        && String.eqb "America/Los_Angeles" (name tz)
        && String.eqb "America/Los_Angeles" (canonical_name tz))).

(** [TestLosAngeles.test_before_spring_forward] *)
Definition test_before_spring_forward : bool :=
  holds (
    let? tz := gettz "America/Los_Angeles" in
    let epoch_seconds := 7984799 in
    let unix_seconds := epoch_seconds + SECONDS_SINCE_UNIX_EPOCH in
    let? from_epoch :=
      from_epoch_checks tz epoch_seconds 2000 4 2 1 59 59 "PST" (-8) 0 in
    let dtc := mk 2000 4 2 1 59 59 tz 0 in
    let? dtt := fromtimestamp unix_seconds tz in
    Ok (from_epoch
        && from_component_checks dtc unix_seconds "PST" (-8) 0
        && eqDT dtc dtt)).

(** [TestLosAngeles.test_after_spring_forward] *)
Definition test_after_spring_forward : bool :=
  holds (
    let? tz := gettz "America/Los_Angeles" in
    let epoch_seconds := 7984800 in
    let unix_seconds := epoch_seconds + SECONDS_SINCE_UNIX_EPOCH in
    let? from_epoch :=
      from_epoch_checks tz epoch_seconds 2000 4 2 3 0 0 "PDT" (-7) 1 in
    let dtc := mk 2000 4 2 3 0 0 tz 0 in
    let? dtt := fromtimestamp unix_seconds tz in
    Ok (from_epoch
        && from_component_checks dtc unix_seconds "PDT" (-7) 1
        && eqDT dtc dtt)).

(** [TestLosAngeles.test_before_fall_back] (lines 173-221) *)
Definition test_before_fall_back : bool :=
  holds (
    let? tz := gettz "America/Los_Angeles" in
    let epoch_seconds := 26125199 in
    let unix_seconds := epoch_seconds + SECONDS_SINCE_UNIX_EPOCH in
    let? from_epoch :=
      from_epoch_checks tz epoch_seconds 2000 10 29 1 59 59 "PDT" (-7) 1 in
    let dtc := mk 2000 10 29 1 59 59 tz 0 in
    let dtc1 := mk 2000 10 29 1 59 59 tz 1 in
    Ok (from_epoch
        && from_component_checks dtc unix_seconds "PDT" (-7) 1
        && from_component_checks dtc1 (unix_seconds + 3600) "PST" (-8) 0)).

(** [TestLosAngeles.test_after_fall_back] *)
Definition test_after_fall_back : bool :=
  holds (
    let? tz := gettz "America/Los_Angeles" in
    let epoch_seconds := 26125200 in
    let unix_seconds := epoch_seconds + SECONDS_SINCE_UNIX_EPOCH in
    let? from_epoch :=
      from_epoch_checks tz epoch_seconds 2000 10 29 1 0 0 "PST" (-8) 0 in
    let dtc := mk 2000 10 29 1 0 0 tz 1 in
    let? dtt := fromtimestamp unix_seconds tz in
    Ok (from_epoch
        && from_component_checks dtc unix_seconds "PST" (-8) 0
        && eqDT dtc dtt)).

(** [TestLosAngeles.test_way_after_fall_back] *)
Definition test_way_after_fall_back : bool :=
  holds (
    let? tz := gettz "America/Los_Angeles" in
    let epoch_seconds := 26125200 + 3600 in
    let unix_seconds := epoch_seconds + SECONDS_SINCE_UNIX_EPOCH in
    let? from_epoch :=
      from_epoch_checks tz epoch_seconds 2000 10 29 2 0 0 "PST" (-8) 0 in
    let dtc := mk 2000 10 29 2 0 0 tz 0 in
    let? dtt := fromtimestamp unix_seconds tz in
    Ok (from_epoch
        && from_component_checks dtc unix_seconds "PST" (-8) 0
        && eqDT dtc dtt)).

(** The assertions that the two [test_zone_info] share; there the zone
    comes from the database entry, not from the registry. *)
Definition zone_info_checks (tz : ZoneInfo) : Result bool :=
  let epoch_seconds := 7984800 in
  let unix_seconds := epoch_seconds + SECONDS_SINCE_UNIX_EPOCH in
  let dtc := mk 2000 4 2 3 0 0 tz 0 in
  let? dtu := fromtimestamp unix_seconds tz in
  Ok (from_component_checks dtc unix_seconds "PDT" (-7) 1
      && fields dtc 2000 4 2 3 0 0
      && eqDT dtu dtc).

(** [TestLosAngeles.test_zone_info] *)
Definition test_zone_info_Los_Angeles : bool :=
  let tz := ZONE_INFO_America_Los_Angeles in
  negb (is_link tz) && holds (zone_info_checks tz).

(** [TestUSPacific.test_zone_info] *)
Definition test_zone_info_US_Pacific : bool :=
  let tz := ZONE_INFO_US_Pacific in
  is_link tz
  && holds (zone_info_checks tz)
  && eqS "PDT" (tzname (mk 2000 4 2 3 0 0 tz 0))
  && String.eqb "US/Pacific" (name tz)
  && String.eqb "America/Los_Angeles" (canonical_name tz).

(** [TestTunis.test_2006_01_01] *)
Definition test_2006_01_01 : bool :=
  holds (
    let? tz := gettz "Africa/Tunis" in
    let epoch_seconds := 189385200 in
    let unix_seconds := epoch_seconds + SECONDS_SINCE_UNIX_EPOCH in
    let? from_epoch :=
      from_epoch_checks tz epoch_seconds 2006 1 1 0 0 0 "CET" 1 0 in
    let dtc := mk 2006 1 1 0 0 0 tz 0 in
    let? dtt := fromtimestamp unix_seconds tz in
    Ok (from_epoch
        && from_component_checks dtc unix_seconds "CET" 1 0
        && eqDT dtc dtt)).

(** [TestSydney.test_2000_03_26_after_fall_back] *)
Definition test_2000_03_26_after_fall_back : bool :=
  holds (
    let? tz := gettz "Australia/Sydney" in
    let epoch_seconds := 7315200 in
    let unix_seconds := epoch_seconds + SECONDS_SINCE_UNIX_EPOCH in
    let? from_epoch :=
      from_epoch_checks tz epoch_seconds 2000 3 26 2 0 0 "AEST" 10 0 in
    let dtc := mk 2000 3 26 2 0 0 tz 1 in
    let? dtt := fromtimestamp unix_seconds tz in
    Ok (from_epoch
        && from_component_checks dtc unix_seconds "AEST" 10 0
        && eqDT dtc dtt)).

End test_acetz.

(** The transitions of America/Los_Angeles that the builder gives for the
    year 2000: daylight time from 2000-04-02 10:00 UT to 2000-10-29 09:00
    UT. *)
Definition Los_Angeles_PDT_2000 : engine.ActiveTransition :=
  {| engine.start_instant := 954669600; engine.until_instant := 972810000;
     engine.utc_offset := -28800; engine.dst_offset := 3600;
     engine.abbreviation := "PDT"; engine.fold := 0 |}.

Definition Los_Angeles_PST_2000 : engine.ActiveTransition :=
  {| engine.start_instant := 972810000; engine.until_instant := 986119200;
     engine.utc_offset := -28800; engine.dst_offset := 0;
     engine.abbreviation := "PST"; engine.fold := 0 |}.

Definition Los_Angeles_2000 : list engine.ActiveTransition :=
  [{| engine.start_instant := 915148800; engine.until_instant := 954669600;
      engine.utc_offset := -28800; engine.dst_offset := 0;
      engine.abbreviation := "PST"; engine.fold := 0 |};
   Los_Angeles_PDT_2000;
   Los_Angeles_PST_2000;
   {| engine.start_instant := 986119200; engine.until_instant := 1009843200;
      engine.utc_offset := -28800; engine.dst_offset := 3600;
      engine.abbreviation := "PDT"; engine.fold := 0 |}].
(** ** Facts on the loops *)

(** A list grown by appending one image at a time is the mapped list. *)
Lemma fold_left_snoc_map {A B} (f : A -> B) (xs : list A) (acc : list B) :
  fold_left (fun acc x => acc ++ [f x]) xs acc = acc ++ map f xs.
Proof.
  revert acc. induction xs as [|x xs IH]; intros acc; simpl.
  - by rewrite app_nil_r.
  - rewrite IH. by rewrite <- app_assoc.
Qed.


Lemma assign_all_app {A V} (key : A -> string) (val : A -> V) l1 l2 m :
  assign_all key val (l1 ++ l2) m = assign_all key val l2 (assign_all key val l1 m).
Proof. unfold assign_all. apply fold_left_app. Qed.

Lemma lookup_assign_all_notin {A V} (key : A -> string) (val : A -> V) l m k :
  (forall x, x ∈ l -> key x <> k) ->
  assign_all key val l m !! k = m !! k.
Proof.
  revert m. induction l as [|y l IH]; intros m Hne; simpl; [done|].
  unfold assign_all in *. simpl. rewrite IH.
  - apply lookup_insert_ne. apply Hne. by left.
  - intros x Hx. apply Hne. by right.
Qed.

(** The last assignment to a key is the one that is read back. *)
Lemma lookup_assign_all_last {A V} (key : A -> string) (val : A -> V) l1 x l2 m :
  (forall y, y ∈ l2 -> key y <> key x) ->
  assign_all key val (l1 ++ x :: l2) m !! key x = Some (val x).
Proof.
  intros Hne. rewrite assign_all_app.
  change (x :: l2) with ([x] ++ l2). rewrite assign_all_app.
  rewrite lookup_assign_all_notin by done.
  unfold assign_all. simpl. apply lookup_insert_eq.
Qed.

(** Whatever is read back was there before or was assigned from an item. *)
Lemma lookup_assign_all_inv {A V} (key : A -> string) (val : A -> V) l m k v :
  assign_all key val l m !! k = Some v ->
  m !! k = Some v \/ exists x, x ∈ l /\ key x = k /\ val x = v.
Proof.
  revert m. induction l as [|y l IH]; intros m H; [by left|].
  unfold assign_all in *. simpl in H. apply IH in H as [H|(x & Hx & Hk & Hv)].
  - destruct (decide (key y = k)) as [Heq|Hne].
    + rewrite Heq, lookup_insert_eq in H. right. exists y.
      split; [by left|]. split; [done|]. congruence.
    + rewrite lookup_insert_ne in H by done. by left.
  - right. exists x. split; [by right|done].
Qed.

Lemma lookup_assign_all_is_Some {A V} (key : A -> string) (val : A -> V) l m k :
  is_Some (assign_all key val l m !! k) <->
  is_Some (m !! k) \/ exists x, x ∈ l /\ key x = k.
Proof.
  split.
  - intros [v Hv]. apply lookup_assign_all_inv in Hv as [H|(x & Hx & Hk & _)]; eauto.
  - revert m. induction l as [|y l IH]; intros m [H|(x & Hx & Hk)].
    + done.
    + by apply elem_of_nil in Hx.
    + unfold assign_all in *. simpl. apply IH. left.
      rewrite lookup_insert. case_decide; eauto.
    + unfold assign_all in *. simpl. apply IH.
      apply elem_of_cons in Hx as [->|Hx].
      * left. rewrite Hk, lookup_insert_eq. eauto.
      * right. eauto.
Qed.

Section inline_zone_info_facts.

Variable normalize_name : string -> string.

Local Abbreviation policy_key := (policy_key normalize_name).
Local Abbreviation policies_after := (policies_after normalize_name).
Local Abbreviation resolvable := (resolvable normalize_name).
Local Abbreviation zone_policy_rel := (zone_policy_rel normalize_name).
Local Abbreviation era_rel := (era_rel normalize_name).
Local Abbreviation info_rel := (info_rel normalize_name).
Local Abbreviation keys_from_inputs := (keys_from_inputs normalize_name).

Lemma policy_rules_of_map rules :
  policy_rules_of rules = map policy_rule rules.
Proof. unfold policy_rules_of. by rewrite fold_left_snoc_map. Qed.



Lemma for_each_generate_policies items self :
  for_each items (_generate_policies_body normalize_name) self =
  (inr tt, {| zones_map := zones_map self;
              policies_map := policies_map self;
              zone_infos := zone_infos self;
              zone_policies := assign_all policy_key policy_of items (zone_policies self) |}).
Proof.
  revert self. induction items as [|[n rs] items IH]; intros self.
  - by destruct self.
  - simpl. unfold bind. simpl. rewrite IH. reflexivity.
Qed.

Lemma run_generate_policies self :
  _generate_policies normalize_name self =
  (inr tt, {| zones_map := zones_map self;
              policies_map := policies_map self;
              zone_infos := zone_infos self;
              zone_policies :=
                assign_all policy_key policy_of (policies_map self) (zone_policies self) |}).
Proof. unfold _generate_policies, bind, attr. apply for_each_generate_policies. Qed.





Lemma era_zone_policy_spec era self :
  exists r, era_zone_policy normalize_name era self = (r, self) /\
    match r with
    | inr v => zone_policy_rel (zone_policies self) era v
    | inl e => ~ resolvable (zone_policies self) era /\
               e = KeyError (normalize_name (at_types.rules era))
    end.
Proof.
  unfold era_zone_policy. case_bool_decide as Hin.
  - exists (inr (IsStr (at_types.rules era))). split; [done|].
    apply elem_of_cons in Hin as [Hin|Hin].
    + left. by rewrite Hin.
    + apply elem_of_cons in Hin as [Hin|Hin]; [|by apply elem_of_nil in Hin].
      right; left. by rewrite Hin.
  - assert (at_types.rules era <> "-" /\ at_types.rules era <> ":") as [H1 H2].
    { split; intros Heq; apply Hin; rewrite Heq.
      - by left.
      - right; by left. }
    unfold bind, zone_policies_getitem.
    destruct (zone_policies self !! normalize_name (at_types.rules era)) as [p|] eqn:Hp.
    + exists (inr (IsPolicy p)). split; [done|]. right; right. eauto.
    + exists (inl (KeyError (normalize_name (at_types.rules era)))). split; [done|].
      split; [|done]. intros [?|[?|[? Hs]]]; try done. congruence.
Qed.

Lemma zone_eras_step_spec zone_eras era self :
  exists r, zone_eras_step normalize_name zone_eras era self = (r, self) /\
    match r with
    | inr zes => exists ze, era_rel (zone_policies self) era ze /\ zes = zone_eras ++ [ze]
    | inl e => ~ resolvable (zone_policies self) era /\
               e = KeyError (normalize_name (at_types.rules era))
    end.
Proof.
  destruct (era_zone_policy_spec era self) as (r & Hr & Hspec).
  unfold zone_eras_step, bind. rewrite Hr. destruct r as [e|v].
  - exists (inl e). done.
  - eexists (inr _). split; [reflexivity|]. eexists. split; [|reflexivity].
    exists v. done.
Qed.

(** The loop over the eras of one zone: it leaves the object alone, and
    either appends one [ZoneEra] per era, in order, or stops with the
    [KeyError] of the first era that has no policy. *)
Lemma for_fold_zone_eras_spec eras zone_eras self :
  exists r, for_fold eras (zone_eras_step normalize_name) zone_eras self = (r, self) /\
    match r with
    | inr zes => exists new, Forall2 (era_rel (zone_policies self)) eras new /\
                             zes = zone_eras ++ new
    | inl e => exists era, era ∈ eras /\ ~ resolvable (zone_policies self) era /\
                           e = KeyError (normalize_name (at_types.rules era))
    end.
Proof.
  revert zone_eras. induction eras as [|era eras IH]; intros zone_eras; simpl.
  - exists (inr zone_eras). split; [done|]. exists []. split; [constructor|].
    by rewrite app_nil_r.
  - destruct (zone_eras_step_spec zone_eras era self) as (r & Hr & Hspec).
    unfold bind. rewrite Hr. destruct r as [e|zes].
    + exists (inl e). split; [done|]. destruct Hspec as [Hn He].
      exists era. split; [by left|done].
    + destruct Hspec as (ze & Hze & ->).
      destruct (IH (zone_eras ++ [ze])) as (r & Hr' & Hspec').
      exists r. split; [done|]. destruct r as [e|zes].
      * destruct Hspec' as (era' & Hin & Hrest). exists era'. split; [by right|done].
      * destruct Hspec' as (new & Hnew & ->). exists (ze :: new).
        split; [by constructor|]. by rewrite <- app_assoc.
Qed.



(** The loop over the zones: only [zone_infos] changes; either every zone
    is assigned its dict, or the loop stops at an era without a policy. *)
Lemma for_each_generate_infos_spec items self :
  exists r self', for_each items (_generate_infos_body normalize_name) self = (r, self') /\
    zones_map self' = zones_map self /\
    policies_map self' = policies_map self /\
    zone_policies self' = zone_policies self /\
    match r with
    | inr _ => exists built, Forall2 (info_rel (zone_policies self)) items built /\
                 zone_infos self' = assign_all fst zone_info_of built (zone_infos self)
    | inl e => exists item era, item ∈ items /\ era ∈ item.2 /\
                 ~ resolvable (zone_policies self) era /\
                 e = KeyError (normalize_name (at_types.rules era))
    end.
Proof.
  revert self. induction items as [|[z eras] items IH]; intros self.
  - exists (inr tt), self. simpl. repeat split; try done.
    exists []. split; [constructor|done].
  - destruct (for_fold_zone_eras_spec eras [] self) as (r0 & Hr0 & Hspec0).
    simpl. unfold bind at 1. unfold bind at 1. rewrite Hr0. destruct r0 as [e|zes].
    + exists (inl e), self. repeat split; try done.
      destruct Hspec0 as (era & Hin & Hn & He).
      exists (z, eras), era. split; [by left|done].
    + destruct Hspec0 as (new & Hnew & ->). simpl.
      match goal with |- context [for_each items _ ?s] =>
        destruct (IH s) as (r & self' & Hr & Hz & Hp & Hzp & Hspec) end.
      simpl in Hz, Hp, Hzp, Hspec.
      exists r, self'. split; [done|]. repeat split; try done.
      destruct r as [e|[]].
      * destruct Hspec as (item & era & Hin & Hrest).
        exists item, era. split; [by right|done].
      * destruct Hspec as (built & Hbuilt & Hinfos).
        exists ((z, new) :: built). split.
        -- constructor; [|done]. by split.
        -- rewrite Hinfos. reflexivity.
Qed.

(** Whether the loop over the zones ends or stops, the keys it adds to
    [zone_infos] are zone names. *)
Lemma for_each_generate_infos_prefix items self :
  exists r self', for_each items (_generate_infos_body normalize_name) self = (r, self') /\
    forall k, is_Some (zone_infos self' !! k) ->
      is_Some (zone_infos self !! k) \/ k ∈ items.*1.
Proof.
  revert self. induction items as [|[z eras] items IH]; intros self.
  - exists (inr tt), self. split; [done|]. by left.
  - destruct (for_fold_zone_eras_spec eras [] self) as (r0 & Hr0 & _).
    simpl. unfold bind at 1. unfold bind at 1. rewrite Hr0. destruct r0 as [e|zes].
    + exists (inl e), self. split; [done|]. by left.
    + simpl.
      match goal with |- context [for_each items _ ?s] =>
        destruct (IH s) as (r & self' & Hr & Hkeys) end.
      exists r, self'. split; [done|]. intros k Hk.
      destruct (Hkeys k Hk) as [Hk'|Hk'].
      * simpl in Hk'. rewrite lookup_insert in Hk'. case_decide as Hd.
        -- right. rewrite <- Hd. by left.
        -- by left.
      * right. by right.
Qed.


(** [generate_zonedb] as a whole. *)
Lemma generate_zonedb_spec self :
  exists r self', generate_zonedb normalize_name self = (r, self') /\
    zones_map self' = zones_map self /\
    policies_map self' = policies_map self /\
    zone_policies self' = policies_after self /\
    match r with
    | inr (infos, policies) =>
        policies = policies_after self /\ infos = zone_infos self' /\
        exists built, Forall2 (info_rel (policies_after self)) (zones_map self) built /\
          infos = assign_all fst zone_info_of built (zone_infos self)
    | inl e => exists item era, item ∈ zones_map self /\ era ∈ item.2 /\
                 ~ resolvable (policies_after self) era /\
                 e = KeyError (normalize_name (at_types.rules era))
    end.
Proof.
  unfold generate_zonedb. unfold bind at 1. rewrite run_generate_policies.
  unfold _generate_infos. unfold bind at 1. unfold bind at 1. unfold attr at 1. simpl.
  match goal with |- context [for_each _ _ ?s] =>
    destruct (for_each_generate_infos_spec (zones_map self) s)
      as (r & self' & Hr & Hz & Hp & Hzp & Hspec) end.
  simpl in Hz, Hp, Hzp, Hspec. rewrite Hr. destruct r as [e|[]].
  - exists (inl e), self'. done.
  - exists (inr (zone_infos self', zone_policies self')), self'.
    split; [done|]. rewrite Hzp. repeat split; try done.
Qed.

(** The policy stored for an item of [policies_map] is read back under the
    normalized name unless a later item has the same normalized name. *)
Lemma generated_policy_last self l1 n rs l2 :
  policies_map self = l1 ++ (n, rs) :: l2 ->
  (forall n', n' ∈ l2.*1 -> normalize_name n' <> normalize_name n) ->
  policies_after self !! normalize_name n = Some (policy_of (n, rs)).
Proof.
  intros Hpm Hlater. unfold policies_after. rewrite Hpm.
  apply (lookup_assign_all_last policy_key policy_of l1 (n, rs) l2).
  intros [n' rs'] Hin. apply Hlater. apply list_elem_of_fmap. by exists (n', rs').
Qed.

Lemma not_elem_of_later_keys {A} (l1 l2 : list (string * A)) z v :
  NoDup (l1 ++ (z, v) :: l2).*1 -> z ∉ l2.*1.
Proof.
  rewrite fmap_app, fmap_cons. intros Hnd.
  apply NoDup_app in Hnd as (_ & _ & Hnd). by apply NoDup_cons in Hnd as [? _].
Qed.

(** The dict stored for a zone of [zones_map] by a call that returns. *)
Lemma generated_info_last self infos policies self' l1 z eras l2 :
  zones_map self = l1 ++ (z, eras) :: l2 ->
  z ∉ l2.*1 ->
  generate_zonedb normalize_name self = (inr (infos, policies), self') ->
  policies = policies_after self /\
  exists zes, infos !! z = Some (zone_info_of (z, zes)) /\
              Forall2 (era_rel policies) eras zes.
Proof.
  intros Hzm Hlast Hrun.
  destruct (generate_zonedb_spec self) as (r & s & Hr & _ & _ & _ & Hspec).
  rewrite Hrun in Hr. injection Hr as <- <-.
  destruct Hspec as (-> & _ & built & Hbuilt & ->). split; [done|].
  rewrite Hzm in Hbuilt.
  apply Forall2_app_inv_l in Hbuilt as (b1 & b2' & Hb1 & Hb2 & ->).
  apply Forall2_cons_inv_l in Hb2 as ([z' zes] & b2 & [Hz Hzes] & Hb2 & ->).
  simpl in Hz, Hzes. subst z'. exists zes. split; [|done].
  apply (lookup_assign_all_last fst zone_info_of b1 (z, zes) b2).
  intros y Hy Heq. apply Hlast.
  apply list_elem_of_lookup in Hy as [i Hi].
  destruct (Forall2_lookup_r _ _ _ _ _ Hb2 Hi) as (item & Hitem & [Hfst _]).
  apply list_elem_of_fmap. exists item. split.
  - simpl in Heq. congruence.
  - apply list_elem_of_lookup. eauto.
Qed.

Lemma generated_info self infos policies self' z eras :
  NoDup (zones_map self).*1 ->
  (z, eras) ∈ zones_map self ->
  generate_zonedb normalize_name self = (inr (infos, policies), self') ->
  policies = policies_after self /\
  exists zes, infos !! z = Some (zone_info_of (z, zes)) /\
              Forall2 (era_rel policies) eras zes.
Proof.
  intros Hnd Hin Hrun. apply list_elem_of_split in Hin as (l1 & l2 & Hzm).
  apply (generated_info_last self infos policies self' l1 z eras l2); try done.
  rewrite Hzm in Hnd. by apply not_elem_of_later_keys in Hnd.
Qed.

Lemma lookup_zone_info_of_name b : zone_info_of b !! "name" = Some (VStr b.1).
Proof. unfold zone_info_of, zone_info_dict. apply lookup_insert_eq. Qed.

Lemma lookup_zone_info_of_eras b : zone_info_of b !! "eras" = Some (VEras b.2).
Proof.
  unfold zone_info_of, zone_info_dict.
  rewrite lookup_insert_ne by done. apply lookup_insert_eq.
Qed.


Lemma zone_policy_rel_resolvable zp era v :
  zone_policy_rel zp era v -> resolvable zp era.
Proof.
  intros [[? _]|[[? _]|(_ & _ & p & Hp & _)]]; [by left|by right; left|].
  right; right. eauto.
Qed.

(** The keys of [zone_policies] once [_generate_policies] has run: those
    it had, and the normalized policy names. *)
Lemma policies_after_is_Some self k :
  is_Some (policies_after self !! k) <->
  is_Some (zone_policies self !! k) \/
  exists n, n ∈ (policies_map self).*1 /\ k = normalize_name n.
Proof.
  unfold policies_after. rewrite lookup_assign_all_is_Some. split.
  - intros [?|([n rs] & Hin & <-)]; [by left|]. right.
    exists n. split; [|done]. apply list_elem_of_fmap. by exists (n, rs).
  - intros [?|(n & Hin & ->)]; [by left|]. right.
    apply list_elem_of_fmap in Hin as ([n' rs] & -> & Hin). by exists (n', rs).
Qed.


Lemma keys_from_inputs_init zm pm : keys_from_inputs (__init__ zm pm).
Proof. split; intros k [v Hv]; simpl in Hv; by rewrite lookup_empty in Hv. Qed.

(** A call returns exactly when every era can be generated. *)
Lemma generate_zonedb_returns_iff self :
  (exists infos policies self',
     generate_zonedb normalize_name self = (inr (infos, policies), self')) <->
  (forall item era, item ∈ zones_map self -> era ∈ item.2 ->
     resolvable (policies_after self) era).
Proof.
  destruct (generate_zonedb_spec self) as (r & s & Hr & _ & _ & _ & Hspec). split.
  - intros (infos & policies & self' & Hrun) item era Hitem Hera.
    rewrite Hrun in Hr. injection Hr as <- <-.
    destruct Hspec as (_ & _ & built & Hbuilt & _).
    apply list_elem_of_lookup in Hitem as [i Hi].
    destruct (Forall2_lookup_l _ _ _ _ _ Hbuilt Hi) as (b & _ & _ & Hzes).
    apply list_elem_of_lookup in Hera as [j Hj].
    destruct (Forall2_lookup_l _ _ _ _ _ Hzes Hj) as (ze & _ & v & Hv & _).
    by eapply zone_policy_rel_resolvable.
  - intros Hall. destruct r as [e|[infos policies]]; [|by eauto].
    destruct Hspec as (item & era & Hitem & Hera & Hn & _).
    destruct Hn. by apply (Hall item).
Qed.

(** A call that raises does so with the [KeyError] of an era without a
    policy, and leaves in [zone_policies] what [_generate_policies] built. *)
Lemma generate_zonedb_raises self e self' :
  generate_zonedb normalize_name self = (inl e, self') ->
  zone_policies self' = zone_policies (_generate_policies normalize_name self).2 /\
  exists item era, item ∈ zones_map self /\ era ∈ item.2 /\
    ~ resolvable (policies_after self) era /\
    e = KeyError (normalize_name (at_types.rules era)).
Proof.
  intros Hrun.
  destruct (generate_zonedb_spec self) as (r & s & Hr & _ & _ & Hzp & Hspec).
  rewrite Hrun in Hr. injection Hr as <- <-.
  split; [|done]. rewrite Hzp, run_generate_policies. done.
Qed.

(** The keys of the returned infos map: those that [zone_infos] had, and
    the zone names. *)
Lemma generated_infos_keys self infos policies self' k :
  generate_zonedb normalize_name self = (inr (infos, policies), self') ->
  is_Some (infos !! k) <-> is_Some (zone_infos self !! k) \/ k ∈ (zones_map self).*1.
Proof.
  intros Hrun.
  destruct (generate_zonedb_spec self) as (r & s & Hr & _ & _ & _ & Hspec).
  rewrite Hrun in Hr. injection Hr as <- <-.
  destruct Hspec as (_ & _ & built & Hbuilt & ->).
  rewrite lookup_assign_all_is_Some. split.
  - intros [?|(b & Hb & <-)]; [by left|]. right.
    apply list_elem_of_lookup in Hb as [i Hi].
    destruct (Forall2_lookup_r _ _ _ _ _ Hbuilt Hi) as (item & Hitem & [-> _]).
    apply list_elem_of_fmap. exists item. split; [done|].
    apply list_elem_of_lookup. eauto.
  - intros [?|Hin]; [by left|]. right.
    apply list_elem_of_fmap in Hin as (item & -> & Hin).
    apply list_elem_of_lookup in Hin as [i Hi].
    destruct (Forall2_lookup_l _ _ _ _ _ Hbuilt Hi) as (b & Hb & [Hfst _]).
    exists b. split; [|done]. apply list_elem_of_lookup. eauto.
Qed.

(** Calls keep the keys of both maps within the inputs, whether they
    return or raise. *)
Lemma keys_from_inputs_preserved self :
  keys_from_inputs self ->
  keys_from_inputs (generate_zonedb normalize_name self).2.
Proof.
  intros [Hp Hi].
  destruct (generate_zonedb normalize_name self) as [r self'] eqn:Hrun.
  destruct (generate_zonedb_spec self) as (r' & s & Hr & Hz & Hpm & Hzp & Hspec).
  rewrite Hrun in Hr. injection Hr as <- <-. simpl. split.
  - intros k Hk. rewrite Hzp in Hk. rewrite Hpm.
    apply policies_after_is_Some in Hk as [Hk|Hk]; [by apply Hp|done].
  - intros k Hk. rewrite Hz. destruct r as [e|[infos policies]].
    + unfold generate_zonedb in Hrun. unfold bind at 1 in Hrun.
      rewrite run_generate_policies in Hrun.
      unfold _generate_infos in Hrun. unfold bind at 1 in Hrun.
      unfold bind at 1 in Hrun. unfold attr at 1 in Hrun. simpl in Hrun.
      match type of Hrun with context [for_each _ _ ?s0] =>
        destruct (for_each_generate_infos_prefix (zones_map self) s0)
          as (r0 & s1 & Hr0 & Hkeys) end.
      rewrite Hr0 in Hrun. destruct r0 as [e0|[]].
      * injection Hrun as <- <-. simpl in Hkeys.
        destruct (Hkeys k Hk) as [?|?]; [by apply Hi|done].
      * unfold bind, attr, ret in Hrun. simpl in Hrun. discriminate.
    + destruct Hspec as (_ & -> & _).
      apply (generated_infos_keys self _ _ _ k Hrun) in Hk as [Hk|Hk];
        [by apply Hi|done].
Qed.

End inline_zone_info_facts.

(** * Part one: properties of [InlineZoneInfo.generate_zonedb] *)

Section inline_zone_info_claims.

Variable normalize_name : string -> string.

(** C1.  The zone names of [zones_map] are distinct, as the keys of a dict
    are.  In a call that returns, the zone of every entry of [zones_map] has
    one generated [ZoneEra] per era, in order, and the [ZoneEra] generated
    for an era has in [zone_policy] the string ['-'] when the era's [rules]
    is ['-'], the string [':'] when it is [':'], and otherwise the
    [ZonePolicy] that the returned policies map holds under
    [normalize_name] of [rules].  The three cases exclude each other and
    nothing else is ever stored. *)
Theorem C1_zone_policy_three_cases self infos policies self' zone_name eras :
  NoDup (zones_map self).*1 ->
  generate_zonedb normalize_name self = (inr (infos, policies), self') ->
  (zone_name, eras) ∈ zones_map self ->
  exists zone_eras,
    (infos !! zone_name) ≫= (.!! "eras") = Some (VEras zone_eras) /\
    length zone_eras = length eras /\
    forall i era, eras !! i = Some era ->
      exists ze, zone_eras !! i = Some ze /\
        ((at_types.rules era = "-" /\ zone_policy ze = IsStr "-") \/
         (at_types.rules era = ":" /\ zone_policy ze = IsStr ":") \/
         (at_types.rules era <> "-" /\ at_types.rules era <> ":" /\
          exists p, policies !! normalize_name (at_types.rules era) = Some p /\
                    zone_policy ze = IsPolicy p)).
Proof.
  intros Hnd Hrun Hin.
  destruct (generated_info normalize_name self infos policies self' zone_name eras
              Hnd Hin Hrun) as (_ & zes & Hzi & Hzes).
  exists zes. split; [|split].
  - rewrite Hzi. simpl. apply lookup_zone_info_of_eras.
  - symmetry. by eapply Forall2_length.
  - intros i era Hi.
    destruct (Forall2_lookup_l _ _ _ _ _ Hzes Hi) as (ze & Hze & v & Hv & ->).
    exists (zone_era_with era v). split; [done|]. exact Hv.
Qed.

(** C3.  The turn of the loop of [_generate_policies] for an entry
    [(name, rs)] of [policies_map] stores, under [normalize_name name],
    a [ZonePolicy] with one [ZoneRule] per input rule, in the input order:
    seven keys are copied, [at_seconds] is the input's
    [at_seconds_truncated] and [delta_seconds] its
    [delta_seconds_truncated].  That policy is the one in the returned map
    unless a later entry has the same normalized name. *)
Theorem C3_policy_rules_copied self l1 name rs l2 :
  policies_map self = l1 ++ (name, rs) :: l2 ->
  exists p : ZonePolicy,
    zone_policies
      (for_each (l1 ++ [(name, rs)]) (_generate_policies_body normalize_name) self).2
      !! normalize_name name = Some p /\
    ((forall n', n' ∈ l2.*1 -> normalize_name n' <> normalize_name name) ->
     forall infos policies self',
       generate_zonedb normalize_name self = (inr (infos, policies), self') ->
       policies !! normalize_name name = Some p) /\
    length (rules p) = length rs /\
    forall i rule, rs !! i = Some rule ->
      exists zr, rules p !! i = Some zr /\
        from_year zr = at_types.from_year rule /\
        to_year zr = at_types.to_year rule /\
        in_month zr = at_types.in_month rule /\
        on_day_of_week zr = at_types.on_day_of_week rule /\
        on_day_of_month zr = at_types.on_day_of_month rule /\
        at_time_suffix zr = at_types.at_time_suffix rule /\
        letter zr = at_types.letter rule /\
        at_seconds zr = at_types.at_seconds_truncated rule /\
        delta_seconds zr = at_types.delta_seconds_truncated rule.
Proof.
  intros Hpm. exists (policy_of (name, rs)). split; [|split; [|split]].
  - rewrite for_each_generate_policies. simpl.
    apply (lookup_assign_all_last (policy_key normalize_name) policy_of l1 (name, rs) []).
    intros y Hy. by apply elem_of_nil in Hy.
  - intros Hlater infos policies self' Hrun.
    destruct (generate_zonedb_spec normalize_name self) as (r & s & Hr & _ & _ & _ & Hspec).
    rewrite Hrun in Hr. injection Hr as <- <-. destruct Hspec as (-> & _).
    by apply (generated_policy_last normalize_name self l1 name rs l2).
  - simpl. rewrite policy_rules_of_map. apply length_map.
  - intros i rule Hi. exists (policy_rule rule). split.
    + simpl. rewrite policy_rules_of_map. rewrite list_lookup_fmap, Hi. done.
    + repeat split.
Qed.

(** C5.  Whatever a call of [generate_zonedb] does, return or raise, the
    object's [zones_map] and [policies_map] are afterwards what they were
    before: the same keys in the same order, with the same rules and eras. *)
Theorem C5_inputs_unchanged self :
  zones_map (generate_zonedb normalize_name self).2 = zones_map self /\
  policies_map (generate_zonedb normalize_name self).2 = policies_map self.
Proof.
  destruct (generate_zonedb_spec normalize_name self) as (r & s & Hr & Hz & Hp & _).
  rewrite Hr. done.
Qed.

(** C10.  Stored names are never normalized.  Every [ZonePolicy] that a
    call adds to the policies map sits under [normalize_name] of its own
    ['name'], and that ['name'] is a key of [policies_map] as it stands;
    the policy read back for an entry of [policies_map] (when no later entry
    has the same normalized name) has the entry's name.  The [ZoneInfo] of
    a zone has in ['name'] the key of [zones_map], the keys of [zones_map]
    being distinct. *)
Theorem C10_names_not_normalized self infos policies self' :
  NoDup (zones_map self).*1 ->
  generate_zonedb normalize_name self = (inr (infos, policies), self') ->
  (forall k p, policies !! k = Some p ->
     zone_policies self !! k = Some p \/
     (k = normalize_name (name p) /\ name p ∈ (policies_map self).*1)) /\
  (forall l1 n rs l2, policies_map self = l1 ++ (n, rs) :: l2 ->
     (forall n', n' ∈ l2.*1 -> normalize_name n' <> normalize_name n) ->
     exists p, policies !! normalize_name n = Some p /\ name p = n) /\
  (forall zone_name eras, (zone_name, eras) ∈ zones_map self ->
     (infos !! zone_name) ≫= (.!! "name") = Some (VStr zone_name)).
Proof.
  intros Hnd Hrun.
  assert (policies = policies_after normalize_name self) as Hpol.
  { destruct (generate_zonedb_spec normalize_name self) as (r & s & Hr & _ & _ & _ & Hspec).
    rewrite Hrun in Hr. injection Hr as <- <-. by destruct Hspec as (-> & _). }
  split; [|split].
  - intros k p Hk. rewrite Hpol in Hk. unfold policies_after in Hk.
    apply lookup_assign_all_inv in Hk as [Hk|([n rs] & Hin & <- & <-)]; [by left|].
    right. split; [done|]. simpl. apply list_elem_of_fmap. by exists (n, rs).
  - intros l1 n rs l2 Hpm Hlater. exists (policy_of (n, rs)). split; [|done].
    rewrite Hpol. by apply (generated_policy_last normalize_name self l1 n rs l2).
  - intros zone_name eras Hin.
    destruct (generated_info normalize_name self infos policies self' zone_name eras
                Hnd Hin Hrun) as (_ & zes & Hzi & _).
    rewrite Hzi. simpl. apply lookup_zone_info_of_name.
Qed.

(** C2, as the code has it.  Take an object whose maps have keys from its
    inputs only, as after [__init__] or after an earlier call.  When a call
    returns, the keys of the policies map are the normalized policy names,
    and the keys of the infos map are the zone names of [zones_map] as they
    stand: line 140 does not normalize [zone_name]. *)
Theorem C2_policies_normalized_infos_verbatim self infos policies self' :
  keys_from_inputs normalize_name self ->
  generate_zonedb normalize_name self = (inr (infos, policies), self') ->
  (forall k, is_Some (policies !! k) <->
     exists n, n ∈ (policies_map self).*1 /\ k = normalize_name n) /\
  (forall k, is_Some (infos !! k) <-> k ∈ (zones_map self).*1).
Proof.
  intros [Hp Hi] Hrun. split.
  - intros k.
    destruct (generate_zonedb_spec normalize_name self)
      as (r & s & Hr & _ & _ & _ & Hspec).
    rewrite Hrun in Hr. injection Hr as <- <-. destruct Hspec as (-> & _).
    rewrite policies_after_is_Some. split; [|by right].
    intros [Hk|Hk]; [by apply Hp|done].
  - intros k. rewrite (generated_infos_keys normalize_name self _ _ _ k Hrun).
    split; [|by right]. intros [Hk|Hk]; [by apply Hi|done].
Qed.

(** Whatever [normalize_name] is, a zone whose normalized name is no zone
    name has nothing under its normalized name in the infos map. *)
Lemma nothing_under_normalized_zone_name self infos policies self' z :
  keys_from_inputs normalize_name self ->
  generate_zonedb normalize_name self = (inr (infos, policies), self') ->
  normalize_name z ∉ (zones_map self).*1 ->
  infos !! normalize_name z = None.
Proof.
  intros [_ Hi] Hrun Hnot.
  destruct (infos !! normalize_name z) as [zi|] eqn:Hz; [|done].
  exfalso. apply Hnot.
  destruct (proj1 (generated_infos_keys normalize_name self _ _ _
                     (normalize_name z) Hrun))
    as [Hk|Hk]; [by rewrite Hz|by apply Hi|done].
Qed.


(** C9, as the code has it.  Take an object whose [zone_policies] has
    normalized policy names for keys, as after [__init__] or after an
    earlier call.  A call returns exactly when every era's [rules] is
    ['-'], or [':'], or has the normalized name of some policy name of
    [policies_map]: the key looked up is compared with the keys of
    [zone_policies], which are normalized names.  Otherwise the call raises
    the [KeyError] of an era whose policy is unknown, and [zone_policies] is
    then still what [_generate_policies] built, with an entry for every
    policy name. *)
Theorem C9_returns_iff_policies_known self :
  (forall k, is_Some (zone_policies self !! k) ->
     exists n, n ∈ (policies_map self).*1 /\ k = normalize_name n) ->
  ((exists infos policies self',
      generate_zonedb normalize_name self = (inr (infos, policies), self')) <->
   (forall zone_name eras era, (zone_name, eras) ∈ zones_map self -> era ∈ eras ->
      at_types.rules era = "-" \/ at_types.rules era = ":" \/
      exists n, n ∈ (policies_map self).*1 /\
        normalize_name (at_types.rules era) = normalize_name n)) /\
  ((exists zone_name eras era, (zone_name, eras) ∈ zones_map self /\ era ∈ eras /\
      at_types.rules era <> "-" /\ at_types.rules era <> ":" /\
      forall n, n ∈ (policies_map self).*1 ->
        normalize_name (at_types.rules era) <> normalize_name n) ->
   exists era self',
     generate_zonedb normalize_name self =
       (inl (KeyError (normalize_name (at_types.rules era))), self') /\
     (forall n, n ∈ (policies_map self).*1 ->
        normalize_name (at_types.rules era) <> normalize_name n) /\
     zone_policies self' = zone_policies (_generate_policies normalize_name self).2 /\
     forall n, n ∈ (policies_map self).*1 ->
       is_Some (zone_policies self' !! normalize_name n)).
Proof.
  intros Hkeys.
  assert (forall era, resolvable normalize_name (policies_after normalize_name self) era <->
          (at_types.rules era = "-" \/ at_types.rules era = ":" \/
           exists n, n ∈ (policies_map self).*1 /\
             normalize_name (at_types.rules era) = normalize_name n)) as Hres.
  { intros era. unfold resolvable. rewrite policies_after_is_Some.
    split; (intros [?|[?|H]]; [by left|by right; left|right; right]); [|by right].
    destruct H as [H|H]; [by apply Hkeys|done]. }
  split.
  - rewrite generate_zonedb_returns_iff. split.
    + intros H zone_name eras era Hin Hera. apply Hres. by apply (H (zone_name, eras)).
    + intros H [zone_name eras] era Hin Hera. apply Hres. by apply (H zone_name eras).
  - intros (zone_name & eras & era & Hin & Hera & H1 & H2 & Hunknown).
    destruct (generate_zonedb normalize_name self) as [[e|[infos policies]] self'] eqn:Hrun.
    + destruct (generate_zonedb_raises normalize_name _ _ _ Hrun)
        as (Hzp & item & era' & _ & _ & Hn & ->).
      exists era', self'. split; [done|]. split; [|split; [done|]].
      * intros n Hn' Heq. apply Hn. apply Hres. right; right. eauto.
      * intros n Hn'. rewrite Hzp, run_generate_policies.
        apply (proj2 (policies_after_is_Some normalize_name self _)). right. eauto.
    + exfalso.
      assert (resolvable normalize_name (policies_after normalize_name self) era) as Hr.
      { apply (proj1 (generate_zonedb_returns_iff normalize_name _)
                 (ex_intro _ _ (ex_intro _ _ (ex_intro _ _ Hrun))) (zone_name, eras));
          done. }
      apply Hres in Hr as [?|[?|(n & Hn & Heq)]]; try done. by apply (Hunknown n).
Qed.

End inline_zone_info_claims.

(** ** The call on the small database *)

Lemma sample_run_returns :
  generate_zonedb transformer.normalize_name sample.self
  = (inr (sample.infos, sample.policies), sample.run.2).
Proof. vm_compute. reflexivity. Qed.

Lemma sample_zones_map_NoDup : NoDup (zones_map sample.self).*1.
Proof. apply (bool_decide_unpack _). by vm_compute. Qed.

(** ** The claims on the small database *)

Lemma C1_witness :
  exists zone_eras,
    (sample.infos !! "Europe/Lisbon") ≫= (.!! "eras") = Some (VEras zone_eras) /\
    length zone_eras = length [sample.era "W-Eur" 0 0 "WE%sT"] /\
    forall i era, [sample.era "W-Eur" 0 0 "WE%sT"] !! i = Some era ->
      exists ze, zone_eras !! i = Some ze /\
        ((at_types.rules era = "-" /\ zone_policy ze = IsStr "-") \/
         (at_types.rules era = ":" /\ zone_policy ze = IsStr ":") \/
         (at_types.rules era <> "-" /\ at_types.rules era <> ":" /\
          exists p, sample.policies !! transformer.normalize_name (at_types.rules era) = Some p /\
                    zone_policy ze = IsPolicy p)).
Proof.
  apply (C1_zone_policy_three_cases transformer.normalize_name sample.self
           sample.infos sample.policies sample.run.2 "Europe/Lisbon").
  - exact sample_zones_map_NoDup.
  - exact sample_run_returns.
  - do 3 right. left.
Defined.

Lemma C3_witness :
  exists p : ZonePolicy,
    zone_policies
      (for_each ([] ++ [("US", [sample.rule_US_spring; sample.rule_US_fall])])
         (_generate_policies_body transformer.normalize_name) sample.self).2
      !! transformer.normalize_name "US" = Some p /\
    ((forall n', n' ∈ [("W-Eur", [sample.rule_W_Eur_spring])].*1 ->
        transformer.normalize_name n' <> transformer.normalize_name "US") ->
     forall infos policies self',
       generate_zonedb transformer.normalize_name sample.self = (inr (infos, policies), self') ->
       policies !! transformer.normalize_name "US" = Some p) /\
    length (rules p) = length [sample.rule_US_spring; sample.rule_US_fall] /\
    forall i rule, [sample.rule_US_spring; sample.rule_US_fall] !! i = Some rule ->
      exists zr, rules p !! i = Some zr /\
        from_year zr = at_types.from_year rule /\
        to_year zr = at_types.to_year rule /\
        in_month zr = at_types.in_month rule /\
        on_day_of_week zr = at_types.on_day_of_week rule /\
        on_day_of_month zr = at_types.on_day_of_month rule /\
        at_time_suffix zr = at_types.at_time_suffix rule /\
        letter zr = at_types.letter rule /\
        at_seconds zr = at_types.at_seconds_truncated rule /\
        delta_seconds zr = at_types.delta_seconds_truncated rule.
Proof.
  apply (C3_policy_rules_copied transformer.normalize_name sample.self []
           "US" [sample.rule_US_spring; sample.rule_US_fall]
           [("W-Eur", [sample.rule_W_Eur_spring])]).
  reflexivity.
Defined.

Lemma C10_witness :
  (forall k p, sample.policies !! k = Some p ->
     zone_policies sample.self !! k = Some p \/
     (k = transformer.normalize_name (name p) /\ name p ∈ (policies_map sample.self).*1)) /\
  (forall l1 n rs l2, policies_map sample.self = l1 ++ (n, rs) :: l2 ->
     (forall n', n' ∈ l2.*1 -> transformer.normalize_name n' <> transformer.normalize_name n) ->
     exists p, sample.policies !! transformer.normalize_name n = Some p /\ name p = n) /\
  (forall zone_name eras, (zone_name, eras) ∈ zones_map sample.self ->
     (sample.infos !! zone_name) ≫= (.!! "name") = Some (VStr zone_name)).
Proof.
  apply (C10_names_not_normalized transformer.normalize_name sample.self
           sample.infos sample.policies sample.run.2).
  - exact sample_zones_map_NoDup.
  - exact sample_run_returns.
Defined.

(** C2 as it is stated fails: the infos map has nothing under the
    normalized name of a zone. *)
Lemma C2_counterexample :
  ~ (forall infos policies self',
       generate_zonedb transformer.normalize_name (__init__ sample.zm sample.pm)
         = (inr (infos, policies), self') ->
       (forall n, n ∈ sample.pm.*1 ->
          is_Some (policies !! transformer.normalize_name n)) /\
       (forall z, z ∈ sample.zm.*1 ->
          is_Some (infos !! transformer.normalize_name z))).
Proof.
  intros H. destruct (H _ _ _ sample_run_returns) as [_ Hz].
  destruct (Hz "America/Los_Angeles") as [zi Hzi]; [by left|].
  vm_compute in Hzi. discriminate.
Qed.

Lemma C2_witness :
  (forall k, is_Some (sample.policies !! k) <->
     exists n, n ∈ (policies_map sample.self).*1 /\ k = transformer.normalize_name n) /\
  (forall k, is_Some (sample.infos !! k) <-> k ∈ (zones_map sample.self).*1).
Proof.
  apply (C2_policies_normalized_infos_verbatim transformer.normalize_name
           sample.self sample.infos sample.policies sample.run.2).
  - apply keys_from_inputs_init.
  - exact sample_run_returns.
Defined.



(** C9 as it is stated fails: the call returns although the normalized
    ["W-Eur"] is no key of [policies_map]. *)
Lemma C9_counterexample :
  ~ ((exists infos policies self',
        generate_zonedb transformer.normalize_name (__init__ sample.zm sample.pm)
          = (inr (infos, policies), self')) <->
     (forall zone_name eras era, (zone_name, eras) ∈ sample.zm -> era ∈ eras ->
        at_types.rules era = "-" \/ at_types.rules era = ":" \/
        transformer.normalize_name (at_types.rules era) ∈ sample.pm.*1)).
Proof.
  intros [H _].
  assert (exists infos policies self',
            generate_zonedb transformer.normalize_name (__init__ sample.zm sample.pm)
              = (inr (infos, policies), self')) as Hret.
  { eexists _, _, _. exact sample_run_returns. }
  destruct (H Hret "Europe/Lisbon" [sample.era "W-Eur" 0 0 "WE%sT"]
              (sample.era "W-Eur" 0 0 "WE%sT"))
    as [Hr|[Hr|Hr]]; [do 3 right; left|left| | |]; try discriminate.
  vm_compute in Hr.
  apply elem_of_cons in Hr as [Hr|Hr]; [discriminate|].
  apply elem_of_cons in Hr as [Hr|Hr]; [discriminate|].
  by apply elem_of_nil in Hr.
Qed.

Lemma C9_witness :
  ((exists infos policies self',
      generate_zonedb transformer.normalize_name sample.self
        = (inr (infos, policies), self')) <->
   (forall zone_name eras era,
      (zone_name, eras) ∈ zones_map sample.self -> era ∈ eras ->
      at_types.rules era = "-" \/ at_types.rules era = ":" \/
      exists n, n ∈ (policies_map sample.self).*1 /\
        transformer.normalize_name (at_types.rules era) = transformer.normalize_name n)) /\
  ((exists zone_name eras era,
      (zone_name, eras) ∈ zones_map sample.self /\ era ∈ eras /\
      at_types.rules era <> "-" /\ at_types.rules era <> ":" /\
      forall n, n ∈ (policies_map sample.self).*1 ->
        transformer.normalize_name (at_types.rules era) <> transformer.normalize_name n) ->
   exists era self',
     generate_zonedb transformer.normalize_name sample.self =
       (inl (KeyError (transformer.normalize_name (at_types.rules era))), self') /\
     (forall n, n ∈ (policies_map sample.self).*1 ->
        transformer.normalize_name (at_types.rules era) <> transformer.normalize_name n) /\
     zone_policies self' =
       zone_policies (_generate_policies transformer.normalize_name sample.self).2 /\
     forall n, n ∈ (policies_map sample.self).*1 ->
       is_Some (zone_policies self' !! transformer.normalize_name n)).
Proof.
  apply (C9_returns_iff_policies_known transformer.normalize_name sample.self).
  intros k [v Hv]. simpl in Hv. by rewrite lookup_empty in Hv.
Defined.

(** A zone whose policy is missing: the call raises the [KeyError] of the
    normalized name, no [ZoneInfo] has been stored, and the policies are
    all there. *)
Lemma unknown_policy_raises :
  exists self',
    generate_zonedb transformer.normalize_name
      (__init__ [("Europe/Paris", [sample.era "EU" 3600 0 "CE%sT"])] sample.pm)
    = (inl (KeyError "eu"), self') /\
    zone_infos self' = ∅ /\
    is_Some (zone_policies self' !! "us") /\
    is_Some (zone_policies self' !! "w-eur").
Proof.
  eexists. split; [vm_compute; reflexivity|]. vm_compute.
  split; [reflexivity|]. split; eexists; reflexivity.
Qed.


(** ** More on [InlineZoneInfo.generate_zonedb] *)

Lemma assign_all_snoc {A V} (key : A -> string) (val : A -> V) l x m :
  assign_all key val (l ++ [x]) m = <[key x := val x]> (assign_all key val l m).
Proof. by rewrite assign_all_app. Qed.

(** What is read back under a key that some item assigns does not depend
    on the dict that was there. *)
Lemma lookup_assign_all_indep {A V} (key : A -> string) (val : A -> V) l m m' k :
  (exists x, x ∈ l /\ key x = k) ->
  assign_all key val l m !! k = assign_all key val l m' !! k.
Proof.
  induction l as [|x l IH] using rev_ind; intros (y & Hy & Hk).
  - by apply elem_of_nil in Hy.
  - rewrite !assign_all_snoc. destruct (decide (key x = k)) as [Heq|Hne].
    + by rewrite Heq, !lookup_insert_eq.
    + rewrite !lookup_insert_ne by done. apply IH.
      apply elem_of_app in Hy as [Hy|Hy]; [by eauto|].
      apply list_elem_of_singleton in Hy. congruence.
Qed.

Lemma assigned_dec {A} (key : A -> string) (l : list A) k :
  (exists x, x ∈ l /\ key x = k) \/ (forall x, x ∈ l -> key x <> k).
Proof.
  destruct (decide (k ∈ key <$> l)) as [Hin|Hnot].
  - left. apply list_elem_of_fmap in Hin as (x & -> & Hx). eauto.
  - right. intros x Hx Heq. apply Hnot. apply list_elem_of_fmap. eauto.
Qed.

(** Assigning the same items twice is assigning them once. *)
Lemma assign_all_idemp {A V} (key : A -> string) (val : A -> V) l m :
  assign_all key val l (assign_all key val l m) = assign_all key val l m.
Proof.
  apply map_eq. intros k. destruct (assigned_dec key l k) as [Hin|Hnot].
  - by apply lookup_assign_all_indep.
  - by rewrite !lookup_assign_all_notin.
Qed.

(** The items in another order assign the same dict when no key occurs
    twice. *)
Lemma lookup_assign_all_NoDup {A V} (key : A -> string) (val : A -> V) l m x :
  NoDup (key <$> l) -> x ∈ l -> assign_all key val l m !! key x = Some (val x).
Proof.
  intros Hnd Hx. apply list_elem_of_split in Hx as (l1 & l2 & ->).
  apply lookup_assign_all_last. intros y Hy Heq.
  rewrite fmap_app, fmap_cons in Hnd. apply NoDup_app in Hnd as (_ & _ & Hnd).
  apply NoDup_cons in Hnd as [Hnot _]. apply Hnot. rewrite <- Heq.
  apply list_elem_of_fmap. eauto.
Qed.

Lemma assign_all_Permutation {A V} (key : A -> string) (val : A -> V) l l' m :
  l ≡ₚ l' -> NoDup (key <$> l) -> assign_all key val l m = assign_all key val l' m.
Proof.
  intros Hp Hnd. apply map_eq. intros k.
  destruct (assigned_dec key l k) as [(x & Hx & <-)|Hnot].
  - rewrite (lookup_assign_all_NoDup key val l m x Hnd Hx).
    symmetry. apply lookup_assign_all_NoDup.
    + by rewrite <- Hp.
    + by rewrite <- Hp.
  - rewrite !lookup_assign_all_notin; [done| |done].
    intros x Hx. apply Hnot. by rewrite Hp.
Qed.

(** A dict assigned onto another is the dict assigned onto nothing, laid
    over the other. *)
Lemma assign_all_union {A V} (key : A -> string) (val : A -> V) l (m : gmap string V) :
  assign_all key val l m = assign_all key val l ∅ ∪ m.
Proof.
  induction l as [|x l IH] using rev_ind.
  - unfold assign_all. simpl. by rewrite (left_id_L ∅ (∪)).
  - rewrite !assign_all_snoc, IH. by rewrite insert_union_l.
Qed.

(** Under a key that some item assigns, the value of one of these items is
    read back. *)
Lemma lookup_assign_all_item {A V} (key : A -> string) (val : A -> V) l m k :
  (exists x, x ∈ l /\ key x = k) ->
  exists x, x ∈ l /\ key x = k /\ assign_all key val l m !! k = Some (val x).
Proof.
  intros Hin. rewrite (lookup_assign_all_indep key val l m ∅ k Hin).
  destruct (proj2 (lookup_assign_all_is_Some key val l ∅ k)) as [v Hv]; [by right|].
  destruct (lookup_assign_all_inv key val l ∅ k v Hv) as [He|(x & Hx & Hk & Hval)].
  - by rewrite lookup_empty in He.
  - exists x. rewrite Hv, Hval. done.
Qed.

(** The keys of a dict after the assignments. *)
Lemma dom_assign_all {A V} (key : A -> string) (val : A -> V) l (m : gmap string V) :
  dom (assign_all key val l m) = list_to_set (key <$> l) ∪ dom m.
Proof.
  revert m. induction l as [|x l IH]; intros m.
  - unfold assign_all. simpl. by rewrite (left_id_L ∅ (∪)).
  - change (assign_all key val (x :: l) m)
      with (assign_all key val l (<[key x := val x]> m)).
    rewrite IH, dom_insert_L, fmap_cons, list_to_set_cons.
    rewrite (assoc_L (∪)). f_equal. apply (comm_L (∪)).
Qed.

Lemma size_list_to_set_le (l : list string) :
  (size (list_to_set l : gset string) <= length l)%nat.
Proof.
  induction l as [|x l IH].
  - rewrite list_to_set_nil, size_empty. done.
  - rewrite list_to_set_cons, size_union_alt, size_singleton.
    assert (size (list_to_set l ∖ {[x]} : gset string) <= size (list_to_set l : gset string))%nat
      by (apply subseteq_size, subseteq_difference_l; done).
    simpl. lia.
Qed.

Lemma size_list_to_set_NoDup (l : list string) :
  size (list_to_set l : gset string) = length l <-> NoDup l.
Proof.
  split; [|apply size_list_to_set].
  induction l as [|x l IH]; intros Hsize; [constructor|].
  pose proof (size_list_to_set_le l) as Hle.
  rewrite list_to_set_cons in Hsize. simpl in Hsize.
  destruct (decide (x ∈ l)) as [Hin|Hnotin].
  - assert ({[x]} ∪ list_to_set l = (list_to_set l : gset string)) as Heq.
    { apply subseteq_union_1_L, singleton_subseteq_l, elem_of_list_to_set, Hin. }
    rewrite Heq in Hsize. lia.
  - constructor; [done|]. apply IH.
    rewrite size_union in Hsize.
    + rewrite size_singleton in Hsize. lia.
    + apply disjoint_singleton_l. by rewrite elem_of_list_to_set.
Qed.

Section inline_zone_info_runs.

Variable normalize_name : string -> string.

Local Abbreviation zp_in := (zone_policy_in normalize_name).
Local Abbreviation eras_in := (zone_eras_in normalize_name).
Local Abbreviation infos_in := (zone_infos_in normalize_name).
Local Abbreviation after := (object_after normalize_name).
Local Abbreviation policies_after := (policies_after normalize_name).

Lemma era_zone_policy_run era self :
  era_zone_policy normalize_name era self = (zp_in (zone_policies self) era, self).
Proof.
  unfold era_zone_policy, zone_policy_in. case_bool_decide; [done|].
  unfold bind, zone_policies_getitem.
  by destruct (zone_policies self !! normalize_name (at_types.rules era)).
Qed.

Lemma for_fold_zone_eras_run eras zone_eras self :
  for_fold eras (zone_eras_step normalize_name) zone_eras self =
  (match eras_in (zone_policies self) eras with
   | inl e => inl e
   | inr new => inr (zone_eras ++ new)
   end, self).
Proof.
  revert zone_eras. induction eras as [|era eras IH]; intros zone_eras; simpl.
  - by rewrite app_nil_r.
  - unfold bind at 1. unfold zone_eras_step at 1. unfold bind at 1.
    rewrite era_zone_policy_run.
    destruct (zp_in (zone_policies self) era) as [e|v]; [done|].
    simpl. rewrite IH.
    destruct (eras_in (zone_policies self) eras) as [e|new]; [done|].
    by rewrite <- app_assoc.
Qed.

Lemma for_each_generate_infos_run items self :
  for_each items (_generate_infos_body normalize_name) self =
  (match (infos_in (zone_policies self) items).2 with
   | Some e => inl e
   | None => inr tt
   end,
   {| zones_map := zones_map self;
      policies_map := policies_map self;
      zone_infos := assign_all fst zone_info_of
                      (infos_in (zone_policies self) items).1 (zone_infos self);
      zone_policies := zone_policies self |}).
Proof.
  revert self. induction items as [|[z eras] items IH]; intros self.
  - by destruct self.
  - simpl. unfold bind at 1. unfold bind at 1. rewrite for_fold_zone_eras_run.
    destruct (eras_in (zone_policies self) eras) as [e|zes]; simpl.
    + by destruct self.
    + rewrite IH. reflexivity.
Qed.

(** A call, as a function of the object. *)
Lemma generate_zonedb_run self :
  generate_zonedb normalize_name self = (outcome normalize_name self, after self).
Proof.
  unfold generate_zonedb. unfold bind at 1. rewrite run_generate_policies.
  unfold _generate_infos. unfold bind at 1. unfold bind at 1. unfold attr at 1.
  rewrite for_each_generate_infos_run. simpl.
  unfold outcome, object_after.
  fold (policies_after self).
  by destruct (infos_in (policies_after self) (zones_map self)).2.
Qed.

Lemma policies_after_after self : policies_after (after self) = policies_after self.
Proof. unfold policies_after at 1. simpl. apply assign_all_idemp. Qed.

(** X1.  A second call does what the first did: it returns the same maps, or
    raises the same [KeyError], and leaves the object as the first call left
    it. *)
Theorem generate_zonedb_twice self :
  generate_zonedb normalize_name (generate_zonedb normalize_name self).2
  = generate_zonedb normalize_name self.
Proof.
  rewrite !generate_zonedb_run. simpl.
  assert (after (after self) = after self) as Hafter.
  { unfold object_after at 1. rewrite policies_after_after. simpl.
    unfold object_after. f_equal. apply assign_all_idemp. }
  f_equal; [|done]. unfold outcome. rewrite Hafter, policies_after_after. done.
Qed.

(** The zones that the loop stores are zones of [zones_map]. *)
Lemma zone_infos_in_keys zp items b :
  b ∈ (infos_in zp items).1 -> b.1 ∈ items.*1.
Proof.
  revert b. induction items as [|[z eras] items IH]; intros b; simpl.
  - intros H. by apply elem_of_nil in H.
  - destruct (eras_in zp eras) as [e|zes]; simpl.
    + intros H. by apply elem_of_nil in H.
    + intros [->|H]%elem_of_cons; [by left|]. right. by apply IH.
Qed.

(** X2.  A call never removes an entry of [zone_policies] or [zone_infos], and
    it leaves alone every key that is not the normalized name of a policy,
    respectively not the name of a zone. *)
Theorem generate_zonedb_keeps_other_entries self :
  (forall k, (forall n, n ∈ (policies_map self).*1 -> normalize_name n <> k) ->
     zone_policies (generate_zonedb normalize_name self).2 !! k = zone_policies self !! k) /\
  (forall k, k ∉ (zones_map self).*1 ->
     zone_infos (generate_zonedb normalize_name self).2 !! k = zone_infos self !! k) /\
  (forall k, is_Some (zone_policies self !! k) ->
     is_Some (zone_policies (generate_zonedb normalize_name self).2 !! k)) /\
  (forall k, is_Some (zone_infos self !! k) ->
     is_Some (zone_infos (generate_zonedb normalize_name self).2 !! k)).
Proof.
  rewrite generate_zonedb_run. simpl. split; [|split; [|split]].
  - intros k Hk. apply lookup_assign_all_notin.
    intros [n rs] Hin. apply Hk. apply list_elem_of_fmap. by exists (n, rs).
  - intros k Hk. apply lookup_assign_all_notin.
    intros b Hb Heq. apply Hk. rewrite <- Heq. by eapply zone_infos_in_keys.
  - intros k Hk. apply lookup_assign_all_is_Some. by left.
  - intros k Hk. apply lookup_assign_all_is_Some. by left.
Qed.

Lemma zone_policy_in_resolvable zp era :
  resolvable normalize_name zp era -> exists v, zp_in zp era = inr v.
Proof.
  intros Hr. unfold zone_policy_in. case_bool_decide as Hin; [by eauto|].
  destruct Hr as [Hr|[Hr|[p Hp]]].
  - destruct Hin. rewrite Hr. by left.
  - destruct Hin. rewrite Hr. right; by left.
  - rewrite Hp. eauto.
Qed.

Lemma zone_policy_in_unresolvable zp era :
  ~ resolvable normalize_name zp era ->
  zp_in zp era = inl (KeyError (normalize_name (at_types.rules era))).
Proof.
  intros Hn. unfold zone_policy_in. case_bool_decide as Hin.
  - destruct Hn. apply elem_of_cons in Hin as [Hin|Hin]; [by left|].
    apply elem_of_cons in Hin as [Hin|Hin]; [by right; left|].
    by apply elem_of_nil in Hin.
  - destruct (zp !! normalize_name (at_types.rules era)) as [p|] eqn:Hp; [|done].
    destruct Hn. right; right. by rewrite Hp.
Qed.

Lemma zone_eras_in_resolvable zp eras :
  (forall era, era ∈ eras -> resolvable normalize_name zp era) ->
  exists zes, eras_in zp eras = inr zes.
Proof.
  induction eras as [|era eras IH]; intros Hall; simpl; [by eauto|].
  destruct (zone_policy_in_resolvable zp era) as [v ->]; [apply Hall; by left|].
  destruct IH as [zes ->]; [intros; apply Hall; by right|]. eauto.
Qed.

Lemma zone_eras_in_first_unresolvable zp e1 era e2 :
  (forall era', era' ∈ e1 -> resolvable normalize_name zp era') ->
  ~ resolvable normalize_name zp era ->
  eras_in zp (e1 ++ era :: e2) = inl (KeyError (normalize_name (at_types.rules era))).
Proof.
  induction e1 as [|era' e1 IH]; intros Hall Hn; simpl.
  - by rewrite zone_policy_in_unresolvable.
  - destruct (zone_policy_in_resolvable zp era') as [v ->]; [apply Hall; by left|].
    rewrite IH; [done| |done]. intros; apply Hall; by right.
Qed.

Lemma zone_infos_in_resolvable zp items :
  (forall item era, item ∈ items -> era ∈ item.2 -> resolvable normalize_name zp era) ->
  (infos_in zp items).2 = None /\ fst <$> (infos_in zp items).1 = items.*1.
Proof.
  induction items as [|[z eras] items IH]; intros Hall; simpl; [done|].
  destruct (zone_eras_in_resolvable zp eras) as [zes ->].
  { intros era Hera. apply (Hall (z, eras)); [by left|done]. }
  destruct IH as [H2 H1].
  { intros item era Hitem Hera. apply (Hall item); [by right|done]. }
  split; [done|]. cbn [fst snd]. rewrite !fmap_cons. by rewrite H1.
Qed.

Lemma zone_infos_in_app zp l1 l2 :
  (infos_in zp l1).2 = None ->
  infos_in zp (l1 ++ l2) = ((infos_in zp l1).1 ++ (infos_in zp l2).1, (infos_in zp l2).2).
Proof.
  induction l1 as [|[z eras] l1 IH]; simpl.
  - intros _. by destruct (infos_in zp l2).
  - destruct (eras_in zp eras) as [e|zes]; simpl; [done|].
    intros H. by rewrite (IH H).
Qed.

(** X3.  The call stops at the first era, in the order of [zones_map] and of
    the eras of a zone, whose policy is unknown: it raises the [KeyError] of
    that era's normalized policy name, the zones before it have been stored
    under their names, and every other key of [zone_infos] is as it was. *)
Theorem first_unknown_policy_raises self l1 zone_name e1 era e2 l2 :
  (forall k, is_Some (zone_policies self !! k) ->
     exists n, n ∈ (policies_map self).*1 /\ k = normalize_name n) ->
  zones_map self = l1 ++ (zone_name, e1 ++ era :: e2) :: l2 ->
  (forall z eras era', (z, eras) ∈ l1 -> era' ∈ eras ->
     at_types.rules era' = "-" \/ at_types.rules era' = ":" \/
     exists n, n ∈ (policies_map self).*1 /\
       normalize_name (at_types.rules era') = normalize_name n) ->
  (forall era', era' ∈ e1 ->
     at_types.rules era' = "-" \/ at_types.rules era' = ":" \/
     exists n, n ∈ (policies_map self).*1 /\
       normalize_name (at_types.rules era') = normalize_name n) ->
  at_types.rules era <> "-" -> at_types.rules era <> ":" ->
  (forall n, n ∈ (policies_map self).*1 ->
     normalize_name (at_types.rules era) <> normalize_name n) ->
  exists self',
    generate_zonedb normalize_name self
      = (inl (KeyError (normalize_name (at_types.rules era))), self') /\
    (forall k, k ∈ l1.*1 ->
       exists zi : ZoneInfo, zone_infos self' !! k = Some zi /\
                             zi !! "name" = Some (VStr k)) /\
    (forall k, k ∉ l1.*1 -> zone_infos self' !! k = zone_infos self !! k).
Proof.
  intros Hkeys Hzm Hl1 He1 H1 H2 Hunknown.
  assert (forall era', resolvable normalize_name (policies_after self) era' <->
          (at_types.rules era' = "-" \/ at_types.rules era' = ":" \/
           exists n, n ∈ (policies_map self).*1 /\
             normalize_name (at_types.rules era') = normalize_name n)) as Hres.
  { intros era'. unfold resolvable. rewrite policies_after_is_Some.
    split; (intros [?|[?|H]]; [by left|by right; left|right; right]); [|by right].
    destruct H as [H|H]; [by apply Hkeys|done]. }
  destruct (zone_infos_in_resolvable (policies_after self) l1) as [Hnone Hfst].
  { intros [z eras] era' Hitem Hera. apply Hres. by apply (Hl1 z eras). }
  assert (infos_in (policies_after self) (zones_map self)
          = ((infos_in (policies_after self) l1).1,
             Some (KeyError (normalize_name (at_types.rules era))))) as Hrun.
  { rewrite Hzm, (zone_infos_in_app _ _ _ Hnone). simpl.
    rewrite zone_eras_in_first_unresolvable; simpl.
    - by rewrite app_nil_r.
    - intros era' Hera. apply Hres. by apply He1.
    - intros Hr. apply Hres in Hr as [?|[?|(n & Hn & Heq)]]; try done.
      by apply (Hunknown n). }
  exists (after self). rewrite generate_zonedb_run. unfold outcome, object_after.
  rewrite Hrun. simpl. split; [done|]. split.
  - intros k Hk. rewrite <- Hfst in Hk.
    apply list_elem_of_fmap in Hk as (b & -> & Hb).
    destruct (lookup_assign_all_item fst zone_info_of
                (infos_in (policies_after self) l1).1 (zone_infos self) b.1)
      as (b' & _ & Hb' & Hl); [by eauto|].
    exists (zone_info_of b'). split; [done|].
    rewrite lookup_zone_info_of_name. by rewrite Hb'.
  - intros k Hk. apply lookup_assign_all_notin.
    intros b Hb Heq. apply Hk. rewrite <- Hfst, <- Heq.
    apply list_elem_of_fmap. eauto.
Qed.

(** X4.  Of two policies whose names have the same normalized name, the later
    takes the place of the earlier: the entry under the shared key has the
    later name and the later rules, and an era that names the earlier policy
    is given the later one. *)
Theorem later_policy_shadows_earlier self l1 n1 rs1 l2 n2 rs2 l3 infos policies self' :
  policies_map self = l1 ++ (n1, rs1) :: l2 ++ (n2, rs2) :: l3 ->
  normalize_name n1 = normalize_name n2 ->
  (forall n', n' ∈ l3.*1 -> normalize_name n' <> normalize_name n2) ->
  NoDup (zones_map self).*1 ->
  generate_zonedb normalize_name self = (inr (infos, policies), self') ->
  policies !! normalize_name n1 = Some {| name := n2; rules := map policy_rule rs2 |} /\
  forall zone_name eras i era,
    (zone_name, eras) ∈ zones_map self -> eras !! i = Some era ->
    at_types.rules era = n1 -> n1 <> "-" -> n1 <> ":" ->
    exists zone_eras ze,
      (infos !! zone_name) ≫= (.!! "eras") = Some (VEras zone_eras) /\
      zone_eras !! i = Some ze /\
      zone_policy ze = IsPolicy {| name := n2; rules := map policy_rule rs2 |}.
Proof.
  intros Hpm Hsame Hlater Hnd Hrun.
  assert (policies !! normalize_name n1
          = Some {| name := n2; rules := map policy_rule rs2 |}) as Hp.
  { destruct (generate_zonedb_spec normalize_name self) as (r & s & Hr & _ & _ & _ & Hspec).
    rewrite Hrun in Hr. injection Hr as <- <-. destruct Hspec as (-> & _).
    rewrite Hsame.
    rewrite (generated_policy_last normalize_name self (l1 ++ (n1, rs1) :: l2) n2 rs2 l3).
    - unfold policy_of. simpl. by rewrite policy_rules_of_map.
    - by rewrite Hpm, <- app_assoc.
    - done. }
  split; [done|]. intros zone_name eras i era Hin Hi Hera Hn1 Hn2.
  destruct (generated_info normalize_name self infos policies self' zone_name eras
              Hnd Hin Hrun) as (_ & zes & Hzi & Hzes).
  destruct (Forall2_lookup_l _ _ _ _ _ Hzes Hi) as (ze & Hze & v & Hv & ->).
  exists zes, (zone_era_with era v). split; [|split; [done|]].
  - rewrite Hzi. simpl. apply lookup_zone_info_of_eras.
  - simpl. destruct Hv as [[? _]|[[? _]|(_ & _ & p & Hlook & ->)]]; [congruence..|].
    rewrite Hera, Hp in Hlook. by injection Hlook as <-.
Qed.

Lemma zone_infos_in_Permutation zp l l' :
  l ≡ₚ l' -> (infos_in zp l).2 = None ->
  (infos_in zp l').2 = None /\ (infos_in zp l).1 ≡ₚ (infos_in zp l').1.
Proof.
  induction 1 as [|[z eras] l l' Hp IH|[z eras] [z' eras'] l|l l' l'' Hp IH Hp' IH'];
    simpl.
  - done.
  - destruct (eras_in zp eras) as [e|zes]; simpl; [done|].
    intros H. destruct (IH H) as [-> Hperm]. split; [done|]. by constructor.
  - destruct (eras_in zp eras') as [e'|zes']; simpl; [done|].
    destruct (eras_in zp eras) as [e|zes]; simpl; [done|].
    intros H. split; [done|]. apply perm_swap.
  - intros H. destruct (IH H) as [H' Hperm]. destruct (IH' H') as [H'' Hperm'].
    split; [done|]. by etrans.
Qed.

(** X5.  The order of the items of the two input dicts does not matter to what a
    call on a fresh object returns, as long as no two policy names have the
    same normalized name. *)
Theorem generate_zonedb_any_order zm zm' pm pm' infos policies self' :
  zm ≡ₚ zm' -> pm ≡ₚ pm' ->
  NoDup zm.*1 -> NoDup (normalize_name <$> pm.*1) ->
  generate_zonedb normalize_name (__init__ zm pm) = (inr (infos, policies), self') ->
  exists self'',
    generate_zonedb normalize_name (__init__ zm' pm') = (inr (infos, policies), self'').
Proof.
  intros Hzm Hpm Hndz Hndp Hrun. rewrite generate_zonedb_run in Hrun.
  exists (after (__init__ zm' pm')). rewrite generate_zonedb_run.
  f_equal. unfold outcome in *. simpl in *.
  assert (policies_after (__init__ zm' pm') = policies_after (__init__ zm pm)) as Hpol.
  { unfold policies_after. simpl. symmetry.
    apply assign_all_Permutation; [done|].
    rewrite <- list_fmap_compose in Hndp. exact Hndp. }
  rewrite Hpol.
  destruct (infos_in (policies_after (__init__ zm pm)) zm).2 as [e|] eqn:Herr;
    [injection Hrun as Hrun _; discriminate|].
  destruct (zone_infos_in_Permutation _ zm zm' Hzm Herr) as [-> Hperm].
  injection Hrun as <- <- _. f_equal. f_equal.
  symmetry. apply assign_all_Permutation; [done|].
  destruct (zone_infos_in_resolvable (policies_after (__init__ zm pm)) zm) as [_ ->];
    [|done].
  intros item era Hitem Hera.
  refine (proj1 (generate_zonedb_returns_iff normalize_name (__init__ zm pm)) _
            item era Hitem Hera).
  eexists _, _, _. rewrite generate_zonedb_run. unfold outcome. simpl.
  by rewrite Herr.
Qed.

Lemma zone_infos_in_app_stops zp l1 l2 e :
  (infos_in zp l1).2 = Some e -> (infos_in zp (l1 ++ l2)).2 = Some e.
Proof.
  induction l1 as [|[z eras] l1 IH]; simpl; [done|].
  destruct (eras_in zp eras) as [e'|zes]; simpl; [done|]. apply IH.
Qed.

(** X6.  A call on the zones of two dicts put one after the other returns exactly
    when the calls on each of them return, and then with the infos of the
    second laid over the infos of the first; the policies are the same in
    all three. *)
Theorem generate_zonedb_app l1 l2 pm infos policies :
  (exists self',
     generate_zonedb normalize_name (__init__ (l1 ++ l2) pm)
     = (inr (infos, policies), self')) <->
  (exists infos1 infos2 self1 self2,
     generate_zonedb normalize_name (__init__ l1 pm) = (inr (infos1, policies), self1) /\
     generate_zonedb normalize_name (__init__ l2 pm) = (inr (infos2, policies), self2) /\
     infos = infos2 ∪ infos1).
Proof.
  setoid_rewrite generate_zonedb_run. unfold outcome, object_after. simpl.
  assert (forall l, policies_after (__init__ l pm) = policies_after (__init__ [] pm)) as Hzp
    by done.
  rewrite (Hzp (l1 ++ l2)), (Hzp l1), (Hzp l2).
  set (zp := policies_after (__init__ [] pm)). split.
  - intros (self' & Hrun).
    destruct (infos_in zp (l1 ++ l2)).2 as [e|] eqn:Herr;
      [injection Hrun as Hrun _; discriminate|].
    destruct (infos_in zp l1).2 as [e1|] eqn:Herr1.
    { by rewrite (zone_infos_in_app_stops zp l1 l2 e1 Herr1) in Herr. }
    rewrite (zone_infos_in_app zp l1 l2 Herr1) in Herr, Hrun. simpl in Herr, Hrun.
    rewrite Herr. injection Hrun as <- <- _.
    eexists _, _, _, _. split; [reflexivity|]. split; [reflexivity|].
    rewrite assign_all_app. apply assign_all_union.
  - intros (infos1 & infos2 & self1 & self2 & Hrun1 & Hrun2 & ->).
    destruct (infos_in zp l1).2 as [e1|] eqn:Herr1;
      [injection Hrun1 as Hrun1 _; discriminate|].
    destruct (infos_in zp l2).2 as [e2|] eqn:Herr2;
      [injection Hrun2 as Hrun2 _; discriminate|].
    rewrite (zone_infos_in_app zp l1 l2 Herr1). simpl. rewrite Herr2.
    injection Hrun1 as <- <- _. injection Hrun2 as <- _.
    eexists. f_equal. f_equal. f_equal.
    rewrite assign_all_app. apply assign_all_union.
Qed.

Lemma zone_policy_in_weaken (zp zp' : ZonePolicyMap) era v :
  zp ⊆ zp' -> zp_in zp era = inr v -> zp_in zp' era = inr v.
Proof.
  intros Hsub. unfold zone_policy_in. case_bool_decide; [done|].
  destruct (zp !! normalize_name (at_types.rules era)) as [p|] eqn:Hp; [|done].
  by rewrite (lookup_weaken _ _ _ _ Hp Hsub).
Qed.

Lemma zone_eras_in_weaken (zp zp' : ZonePolicyMap) eras zes :
  zp ⊆ zp' -> eras_in zp eras = inr zes -> eras_in zp' eras = inr zes.
Proof.
  intros Hsub. revert zes. induction eras as [|era eras IH]; intros zes; simpl; [done|].
  destruct (zp_in zp era) as [e|v] eqn:Hv; [done|].
  rewrite (zone_policy_in_weaken zp zp' era v Hsub Hv).
  destruct (eras_in zp eras) as [e|zes'] eqn:Hzes; [done|].
  by rewrite (IH zes' eq_refl).
Qed.

Lemma zone_infos_in_weaken (zp zp' : ZonePolicyMap) items :
  zp ⊆ zp' -> (infos_in zp items).2 = None -> infos_in zp' items = infos_in zp items.
Proof.
  intros Hsub. induction items as [|[z eras] items IH]; simpl; [done|].
  destruct (eras_in zp eras) as [e|zes] eqn:Hzes; simpl; [done|].
  rewrite (zone_eras_in_weaken zp zp' eras zes Hsub Hzes). simpl.
  intros H. by rewrite (IH H).
Qed.

(** X7.  Policies that no era needs do no harm: with more policies at the end of
    [policies_map], under normalized names of their own, a call that
    returned still returns, with the same infos and with the policies it had
    among the policies it has now. *)
Theorem unused_policies_are_harmless zm pm extra infos policies self' :
  generate_zonedb normalize_name (__init__ zm pm) = (inr (infos, policies), self') ->
  (forall n n', n ∈ extra.*1 -> n' ∈ pm.*1 -> normalize_name n <> normalize_name n') ->
  exists policies' self'',
    generate_zonedb normalize_name (__init__ zm (pm ++ extra))
    = (inr (infos, policies'), self'') /\
    policies ⊆ policies'.
Proof.
  intros Hrun Hnew. rewrite generate_zonedb_run in Hrun.
  setoid_rewrite generate_zonedb_run.
  unfold outcome, object_after in *. simpl in *.
  set (zp := policies_after (__init__ zm pm)) in *.
  set (zp' := policies_after (__init__ zm (pm ++ extra))).
  assert (zp ⊆ zp') as Hsub.
  { apply map_subseteq_spec. intros k p Hk. unfold zp', policies_after. simpl.
    rewrite assign_all_app. rewrite lookup_assign_all_notin; [exact Hk|].
    intros [n rs] Hin Heq.
    destruct (proj1 (policies_after_is_Some normalize_name (__init__ zm pm) k))
      as [[? Hempty]|(n' & Hn' & ->)]; [by exists p| |].
    - simpl in Hempty. by rewrite lookup_empty in Hempty.
    - apply (Hnew n n'); [|done..]. apply list_elem_of_fmap. by exists (n, rs). }
  destruct (infos_in zp zm).2 as [e|] eqn:Herr;
    [injection Hrun as Hrun _; discriminate|].
  rewrite (zone_infos_in_weaken zp zp' zm Hsub Herr), Herr.
  injection Hrun as <- <- _. eexists _, _. split; [reflexivity|done].
Qed.

Lemma zone_policy_in_returns zp era v :
  zp_in zp era = inr v -> resolvable normalize_name zp era.
Proof.
  intros Hv. destruct (decide (resolvable normalize_name zp era)) as [|Hn]; [done|].
  by rewrite (zone_policy_in_unresolvable zp era Hn) in Hv.
Qed.

Lemma zone_eras_in_returns zp eras zes :
  eras_in zp eras = inr zes ->
  forall era, era ∈ eras -> resolvable normalize_name zp era.
Proof.
  revert zes. induction eras as [|era0 eras IH]; intros zes; simpl.
  - intros _ era Hera. by apply elem_of_nil in Hera.
  - destruct (zp_in zp era0) as [e|v] eqn:Hv; [done|].
    destruct (eras_in zp eras) as [e|zes'] eqn:Hzes; [done|].
    intros _ era Hera. apply elem_of_cons in Hera as [->|Hera].
    + by apply (zone_policy_in_returns zp era0 v).
    + by apply (IH zes').
Qed.

Lemma zone_infos_in_returns zp items :
  (infos_in zp items).2 = None ->
  forall item era, item ∈ items -> era ∈ item.2 -> resolvable normalize_name zp era.
Proof.
  induction items as [|[z eras] items IH]; simpl.
  - intros _ item era Hitem. by apply elem_of_nil in Hitem.
  - destruct (eras_in zp eras) as [e|zes] eqn:Hzes; simpl; [done|].
    intros Hnone item era Hitem Hera. apply elem_of_cons in Hitem as [->|Hitem].
    + by apply (zone_eras_in_returns zp eras zes).
    + by apply (IH Hnone item).
Qed.

(** X8.  The two loops do not commute: [_generate_infos] run on a new object,
    before [_generate_policies], returns exactly when every era of every
    zone has ["-"] or [":"] as its rules, whatever [policies_map] holds. *)
Theorem generate_infos_before_policies zm pm :
  (exists self', _generate_infos normalize_name (__init__ zm pm) = (inr tt, self')) <->
  (forall item era, item ∈ zm -> era ∈ item.2 ->
     at_types.rules era = "-" \/ at_types.rules era = ":").
Proof.
  unfold _generate_infos, bind, attr. rewrite for_each_generate_infos_run. simpl. split.
  - intros (self' & Hrun) item era Hitem Hera.
    destruct (infos_in ∅ zm).2 as [e|] eqn:Herr; [injection Hrun as Hrun _; discriminate|].
    destruct (zone_infos_in_returns ∅ zm Herr item era Hitem Hera) as [H|[H|[p Hp]]];
      [by left|by right|].
    by rewrite lookup_empty in Hp.
  - intros Hall. destruct (zone_infos_in_resolvable ∅ zm) as [-> _]; [|by eauto].
    intros item era Hitem Hera.
    destruct (Hall item era Hitem Hera) as [H|H]; [by left|by right; left].
Qed.

(** X9.  [_generate_policies] on a new object never raises and stores at most
    one policy for each item of [policies_map]; it stores one for each, so
    that no policy is lost, exactly when the normalized names of the
    policies are all different. *)
Theorem no_policy_lost_iff_names_distinct zm pm :
  (_generate_policies normalize_name (__init__ zm pm)).1 = inr tt /\
  (size (zone_policies (_generate_policies normalize_name (__init__ zm pm)).2)
     <= length pm)%nat /\
  (size (zone_policies (_generate_policies normalize_name (__init__ zm pm)).2)
     = length pm <-> NoDup (normalize_name <$> pm.*1)).
Proof.
  rewrite run_generate_policies. simpl. split; [done|].
  rewrite <- size_dom, dom_assign_all, dom_empty_L, (right_id_L ∅ (∪)).
  assert (policy_key normalize_name <$> pm = normalize_name <$> pm.*1) as ->.
  { rewrite <- list_fmap_compose. done. }
  assert (length pm = length (normalize_name <$> pm.*1)) as ->
    by (by rewrite !length_fmap).
  split; [apply size_list_to_set_le|apply size_list_to_set_NoDup].
Qed.

End inline_zone_info_runs.

(** ** The facts above on the small inputs *)

Lemma sample2_run_same_key_returns :
  generate_zonedb transformer.normalize_name sample2.self_same_key
  = (inr (sample2.infos_same_key, sample2.policies_same_key), sample2.run_same_key.2).
Proof. vm_compute. reflexivity. Qed.

Lemma first_unknown_policy_raises_witness :
  exists self',
    generate_zonedb transformer.normalize_name (__init__ sample2.zm_unknown sample.pm)
      = (inl (KeyError (transformer.normalize_name (at_types.rules sample2.era_EU))), self') /\
    (forall k, k ∈ [("Etc/UTC", [sample.era "-" 0 0 "UTC"])].*1 ->
       exists zi : ZoneInfo, zone_infos self' !! k = Some zi /\
                             zi !! "name" = Some (VStr k)) /\
    (forall k, k ∉ [("Etc/UTC", [sample.era "-" 0 0 "UTC"])].*1 ->
       zone_infos self' !! k = zone_infos (__init__ sample2.zm_unknown sample.pm) !! k).
Proof.
  apply (first_unknown_policy_raises transformer.normalize_name
           (__init__ sample2.zm_unknown sample.pm)
           [("Etc/UTC", [sample.era "-" 0 0 "UTC"])]
           "Europe/Paris" [sample.era ":" 561 0 "LMT"] sample2.era_EU
           [sample.era "US" 3600 0 "CE%sT"]
           [("America/Los_Angeles", sample.eras_Los_Angeles)]).
  - intros k [p Hp]. simpl in Hp. by rewrite lookup_empty in Hp.
  - reflexivity.
  - intros z eras era' Hin Hera.
    apply elem_of_cons in Hin as [Hin|Hin]; [|by apply elem_of_nil in Hin].
    injection Hin as -> ->.
    apply elem_of_cons in Hera as [->|Hera]; [by left|by apply elem_of_nil in Hera].
  - intros era' Hera.
    apply elem_of_cons in Hera as [->|Hera]; [by right; left|by apply elem_of_nil in Hera].
  - discriminate.
  - discriminate.
  - intros n Hn.
    apply elem_of_cons in Hn as [->|Hn]; [by vm_compute|].
    apply elem_of_cons in Hn as [->|Hn]; [by vm_compute|by apply elem_of_nil in Hn].
Defined.

Lemma later_policy_shadows_earlier_witness :
  sample2.policies_same_key !! transformer.normalize_name "EU"
    = Some {| name := "eu"; rules := map policy_rule [sample.rule_US_fall] |} /\
  forall zone_name eras i era,
    (zone_name, eras) ∈ zones_map sample2.self_same_key -> eras !! i = Some era ->
    at_types.rules era = "EU" -> "EU" <> "-" -> "EU" <> ":" ->
    exists zone_eras ze,
      (sample2.infos_same_key !! zone_name) ≫= (.!! "eras") = Some (VEras zone_eras) /\
      zone_eras !! i = Some ze /\
      zone_policy ze = IsPolicy {| name := "eu"; rules := map policy_rule [sample.rule_US_fall] |}.
Proof.
  apply (later_policy_shadows_earlier transformer.normalize_name sample2.self_same_key
           [] "EU" [sample.rule_W_Eur_spring]
           [("US", [sample.rule_US_spring; sample.rule_US_fall])]
           "eu" [sample.rule_US_fall] []
           sample2.infos_same_key sample2.policies_same_key sample2.run_same_key.2).
  - reflexivity.
  - reflexivity.
  - intros n' Hn'. by apply elem_of_nil in Hn'.
  - apply (bool_decide_unpack _). by vm_compute.
  - exact sample2_run_same_key_returns.
Defined.

Lemma generate_zonedb_any_order_witness :
  exists self'',
    generate_zonedb transformer.normalize_name
      (__init__ sample2.zm_reversed sample2.pm_reversed)
    = (inr (sample.infos, sample.policies), self'').
Proof.
  apply (generate_zonedb_any_order transformer.normalize_name
           sample.zm sample2.zm_reversed sample.pm sample2.pm_reversed
           sample.infos sample.policies sample.run.2).
  - symmetry. apply reverse_Permutation.
  - symmetry. apply reverse_Permutation.
  - apply (bool_decide_unpack _). by vm_compute.
  - apply (bool_decide_unpack _). by vm_compute.
  - exact sample_run_returns.
Defined.

Lemma unused_policies_are_harmless_witness :
  exists policies' self'',
    generate_zonedb transformer.normalize_name
      (__init__ sample.zm (sample.pm ++ sample2.pm_unused))
    = (inr (sample.infos, policies'), self'') /\
    sample.policies ⊆ policies'.
Proof.
  apply (unused_policies_are_harmless transformer.normalize_name
           sample.zm sample.pm sample2.pm_unused sample.infos sample.policies sample.run.2).
  - exact sample_run_returns.
  - intros n n' Hn Hn'.
    apply elem_of_cons in Hn as [->|Hn]; [|by apply elem_of_nil in Hn].
    apply elem_of_cons in Hn' as [->|Hn']; [by vm_compute|].
    apply elem_of_cons in Hn' as [->|Hn']; [by vm_compute|by apply elem_of_nil in Hn'].
Defined.


(** * Part two: properties of the query surface *)

Section engine_facts.

Import engine.
Local Open Scope Z_scope.


(** Step 1 of the builder: a link is answered with the eras of its
    target. *)
Lemma build_transitions_link alias target Y :
  link_target alias = Some target ->
  build_transitions alias Y = build_transitions target Y.
Proof.
  destruct alias as [n e [t|]]; simpl; intros Heq; [|discriminate].
  injection Heq as ->. reflexivity.
Qed.

Lemma info_for_epoch_link alias target s :
  link_target alias = Some target ->
  info_for_epoch alias s = info_for_epoch target s.
Proof.
  intros Hlink. unfold info_for_epoch.
  by rewrite (build_transitions_link alias target _ Hlink).
Qed.

Lemma info_for_local_link alias target y m d H M S fold :
  link_target alias = Some target ->
  info_for_local alias y m d H M S fold = info_for_local target y m d H M S fold.
Proof.
  intros Hlink. unfold info_for_local.
  by rewrite (build_transitions_link alias target _ Hlink).
Qed.


(** With one claimant the fold is ignored. *)
Lemma find_for_local_unique ts L t fold :
  claimants ts L = [t] -> find_for_local ts L fold = Ok (with_fold t 0).
Proof. intros Hc. unfold find_for_local. by rewrite Hc. Qed.

(** [date_from_days] is the inverse of [days_from_epoch] on the days of
    the years 1999 to 2001. *)
Lemma days_from_epoch_date_from_days n :
  10592 <= n < 11688 ->
  days_from_epoch (date_from_days n).1.1 (date_from_days n).1.2 (date_from_days n).2 = n.
Proof.
  intros Hn.
  assert (forallb (fun k =>
            days_from_epoch (date_from_days (10592 + Z.of_nat k)).1.1
              (date_from_days (10592 + Z.of_nat k)).1.2
              (date_from_days (10592 + Z.of_nat k)).2 =? 10592 + Z.of_nat k)
            (seq 0 1096) = true) as Hall by (vm_compute; reflexivity).
  rewrite forallb_forall in Hall.
  specialize (Hall (Z.to_nat (n - 10592))).
  rewrite Z2Nat.id in Hall by lia.
  replace (10592 + (n - 10592)) with n in Hall by lia.
  apply Z.eqb_eq, Hall. apply in_seq. lia.
Qed.

(** The days of the year 2000. *)
Lemma year_of_days_2000 n :
  10957 <= n < 11323 -> (date_from_days n).1.1 = 2000.
Proof.
  intros Hn.
  assert (forallb (fun k => (date_from_days (10957 + Z.of_nat k)).1.1 =? 2000)
            (seq 0 366) = true) as Hall by (vm_compute; reflexivity).
  rewrite forallb_forall in Hall.
  specialize (Hall (Z.to_nat (n - 10957))).
  rewrite Z2Nat.id in Hall by lia.
  replace (10957 + (n - 10957)) with n in Hall by lia.
  apply Z.eqb_eq, Hall. apply in_seq. lia.
Qed.

Lemma year_of_instant_2000 s :
  946684800 <= s < 978307200 -> year_of_instant s = 2000.
Proof.
  intros Hs. unfold year_of_instant. apply year_of_days_2000.
  split.
  - apply Z.div_le_lower_bound; lia.
  - apply Z.div_lt_upper_bound; lia.
Qed.

Lemma transitions_Los_Angeles_2000 :
  build_transitions zonedb.ZONE_INFO_America_Los_Angeles 2000 = Ok Los_Angeles_2000.
Proof. vm_compute. reflexivity. Qed.

(** Every instant of the year 2000 is answered for America/Los_Angeles:
    standard time up to 2000-04-02 10:00 UT and from 2000-10-29 09:00 UT,
    daylight time between. *)
Lemma info_for_epoch_Los_Angeles_2000 s :
  946684800 <= s < 978307200 ->
  exists t, info_for_epoch zonedb.ZONE_INFO_America_Los_Angeles s = Ok t /\
    utc_offset t = -28800 /\
    ((s < 954669600 /\ dst_offset t = 0 /\ abbreviation t = "PST") \/
     (954669600 <= s < 972810000 /\ dst_offset t = 3600 /\ abbreviation t = "PDT") \/
     (972810000 <= s /\ dst_offset t = 0 /\ abbreviation t = "PST")).
Proof.
  intros Hs. unfold info_for_epoch.
  rewrite (year_of_instant_2000 s Hs), transitions_Los_Angeles_2000.
  unfold Los_Angeles_2000, Los_Angeles_PDT_2000, Los_Angeles_PST_2000.
  unfold and_then, find_for_epoch, contains. simpl List.find.
  destruct (Z.leb_spec 915148800 s); [|lia].
  destruct (Z.ltb_spec s 954669600); simpl.
  { eexists. split; [reflexivity|]. split; [done|]. left. done. }
  destruct (Z.leb_spec 954669600 s); [|lia].
  destruct (Z.ltb_spec s 972810000); simpl.
  { eexists. split; [reflexivity|]. split; [done|]. right; left. done. }
  destruct (Z.leb_spec 972810000 s); [|lia].
  destruct (Z.ltb_spec s 986119200); [|lia]. simpl.
  eexists. split; [reflexivity|]. split; [done|]. right; right. done.
Qed.














End engine_facts.

Section engine_claims.

Import engine zonedb.
Local Open Scope Z_scope.

(** The tests of [test_acetz.py] pass on the engine. *)
Lemma tests_pass :
  test_acetz.test_constructor = true /\
  test_acetz.test_fromtimestamp = true /\
  test_acetz.test_before_spring_forward = true /\
  test_acetz.test_after_spring_forward = true /\
  test_acetz.test_before_fall_back = true /\
  test_acetz.test_after_fall_back = true /\
  test_acetz.test_way_after_fall_back = true /\
  test_acetz.test_zone_info_Los_Angeles = true /\
  test_acetz.test_zone_info_US_Pacific = true /\
  test_acetz.test_2006_01_01 = true /\
  test_acetz.test_2000_03_26_after_fall_back = true.
Proof. vm_compute. repeat split. Qed.

(** Whatever the transitions of a zone are, a total offset of -25200 puts
    the local time 2000-10-29 01:59:59 at the instant 972809999. *)
Lemma epoch_of_fall_back_local_time t :
  total_offset t = -25200 ->
  epoch_of_local (civil_seconds 2000 10 29 (1 * 3600 + 59 * 60 + 59)) t = 972809999.
Proof. intros Ht. unfold epoch_of_local. rewrite Ht. reflexivity. Qed.


(** C7, with the instants of the tests.  America/Los_Angeles at local
    2000-10-29 01:59:59: with [fold = 0] the abbreviation is PDT, the total
    offset -25200 and the Unix epoch second 972809999 (26125199 seconds
    after 2000-01-01, as [test_before_fall_back] has it); with [fold = 1]
    PST, -28800 and 972813599. *)
Theorem C7_fall_back_overlap_scenario :
  exists t0 t1,
    info_for_local ZONE_INFO_America_Los_Angeles 2000 10 29 1 59 59 0 = Ok t0 /\
    abbreviation t0 = "PDT" /\ total_offset t0 = -25200 /\
    epoch_for_local ZONE_INFO_America_Los_Angeles 2000 10 29 1 59 59 0 = Ok 972809999 /\
    972809999 = 26125199 + SECONDS_SINCE_UNIX_EPOCH /\
    info_for_local ZONE_INFO_America_Los_Angeles 2000 10 29 1 59 59 1 = Ok t1 /\
    abbreviation t1 = "PST" /\ total_offset t1 = -28800 /\
    epoch_for_local ZONE_INFO_America_Los_Angeles 2000 10 29 1 59 59 1 = Ok 972813599.
Proof. eexists _, _. vm_compute. repeat split. Qed.

(** C7 as it is stated fails: the instants are an hour later than the
    claim has them. *)
Lemma C7_counterexample :
  ~ (exists t0 t1,
       info_for_local ZONE_INFO_America_Los_Angeles 2000 10 29 1 59 59 0 = Ok t0 /\
       abbreviation t0 = "PDT" /\ total_offset t0 = -25200 /\
       epoch_for_local ZONE_INFO_America_Los_Angeles 2000 10 29 1 59 59 0 = Ok 972806399 /\
       info_for_local ZONE_INFO_America_Los_Angeles 2000 10 29 1 59 59 1 = Ok t1 /\
       abbreviation t1 = "PST" /\ total_offset t1 = -28800 /\
       epoch_for_local ZONE_INFO_America_Los_Angeles 2000 10 29 1 59 59 1 = Ok 972809999).
Proof.
  intros (t0 & t1 & _ & _ & _ & He & _). vm_compute in He. discriminate.
Qed.

(** C8.  At every instant the linked zone US/Pacific is answered as its
    target America/Los_Angeles is, hence with the same total offset,
    abbreviation and DST offset; every instant of the year 2000 has such an
    answer.  The link keeps its display name, and its canonical name is
    that of the target. *)
Theorem C8_US_Pacific_follows_Los_Angeles :
  (forall s, info_for_epoch ZONE_INFO_US_Pacific s
             = info_for_epoch ZONE_INFO_America_Los_Angeles s) /\
  (forall s, 946684800 <= s < 978307200 ->
     exists t, info_for_epoch ZONE_INFO_US_Pacific s = Ok t /\
               info_for_epoch ZONE_INFO_America_Los_Angeles s = Ok t) /\
  (forall y m d H M S fold,
     info_for_local ZONE_INFO_US_Pacific y m d H M S fold
     = info_for_local ZONE_INFO_America_Los_Angeles y m d H M S fold) /\
  is_link ZONE_INFO_US_Pacific = true /\
  name ZONE_INFO_US_Pacific = "US/Pacific" /\
  canonical_name ZONE_INFO_US_Pacific = "America/Los_Angeles" /\
  get_zone ZONE_REGISTRY "US/Pacific" = Ok ZONE_INFO_US_Pacific.
Proof.
  split; [|split; [|split]].
  - intros s. by apply info_for_epoch_link.
  - intros s Hs. destruct (info_for_epoch_Los_Angeles_2000 s Hs) as (t & Ht & _).
    exists t. split; [|done]. by rewrite (info_for_epoch_link _ ZONE_INFO_America_Los_Angeles).
  - intros. by apply info_for_local_link.
  - repeat split.
Qed.

End engine_claims.


